(** * fuse-overlayfs, direct.c: the direct-access data source

    A shallow embedding of [direct.c] (the [direct_access_ds] capability
    set of fuse-overlayfs) and the properties of its override-stat
    protocol, its tiered stat retrieval and its layer lifecycle.

    The C code talks to the kernel and to libc.  Those calls are
    represented by a record of oracles ([platform]); what the C code itself
    does with their answers (return codes, [errno], out-parameters, the
    descriptors it opens and closes, the heap blocks it owns) is written
    out with explicit state passing over a [world]. *)

From Stdlib Require Import ZArith Lia Bool Ascii String List.
From stdpp Require Import base gmap strings list.

Local Open Scope Z_scope.

(** ** Constants of the C environment (Linux, LP64) *)

Module C.
Definition ENOSYS : Z := 38.
Definition EINVAL : Z := 22.
Definition ERANGE : Z := 34.
Definition ENODATA : Z := 61.
Definition ENOENT : Z := 2.
Definition ENOTDIR : Z := 20.

Definition S_IFMT : Z := 61440.     (* 0170000 *)
Definition S_IFDIR : Z := 16384.    (* 0040000 *)
Definition S_IFREG : Z := 32768.    (* 0100000 *)

Definition O_RDONLY : Z := 0.
Definition O_DIRECTORY : Z := 65536. (* 0200000 *)
Definition AT_EMPTY_PATH : Z := 0x1000.
Definition AT_STATX_DONT_SYNC : Z := 0x4000.

Definition NULL : Z := 0.
Definition EOF : Z := -1.

(** widths of [int]/[unsigned int] and [long]/[unsigned long] *)
Definition UINT_MOD : Z := 2 ^ 32.
Definition LONG_MAX : Z := 2 ^ 63 - 1.
Definition LONG_MIN : Z := - 2 ^ 63.
Definition ULONG_MOD : Z := 2 ^ 64.
End C.

Definition XATTR_OVERRIDE_STAT : string := "user.fuseoverlayfs.override_stat".
Definition XATTR_PRIVILEGED_OVERRIDE_STAT : string :=
  "security.fuseoverlayfs.override_stat".

(** ** Data *)

(** [struct stat], the fields the overlay engine reads. *)
Record stat := mk_stat {
  st_dev : Z;
  st_ino : Z;
  st_mode : Z;
  st_nlink : Z;
  st_uid : Z;
  st_gid : Z;
  st_rdev : Z;
  st_size : Z
}.

(** [struct statx], as filled in by the field-selective query. *)
Record statx_buf := mk_statx {
  stx_mask : Z;
  stx_mode : Z;
  stx_nlink : Z;
  stx_uid : Z;
  stx_gid : Z;
  stx_ino : Z;
  stx_size : Z;
  stx_dev_major : Z;
  stx_dev_minor : Z;
  stx_rdev_major : Z;
  stx_rdev_minor : Z
}.

(** [struct ovl_layer], the fields [direct.c] touches.  [l_path] is the
    pointer returned by [realpath] (an address of the heap, [C.NULL] when
    unset). *)
Record ovl_layer := mk_layer {
  l_path : Z;
  l_fd : Z;
  has_stat_override : Z;
  has_privileged_stat_override : Z
}.

Definition set_l_path (p : Z) (l : ovl_layer) : ovl_layer :=
  mk_layer p (l_fd l) (has_stat_override l) (has_privileged_stat_override l).
Definition set_l_fd (fd : Z) (l : ovl_layer) : ovl_layer :=
  mk_layer (l_path l) fd (has_stat_override l) (has_privileged_stat_override l).
Definition set_has_stat_override (v : Z) (l : ovl_layer) : ovl_layer :=
  mk_layer (l_path l) (l_fd l) v (has_privileged_stat_override l).
Definition set_has_privileged_stat_override (v : Z) (l : ovl_layer) : ovl_layer :=
  mk_layer (l_path l) (l_fd l) (has_stat_override l) v.

(** The part of the process state the code reads or changes: [errno], the
    table of open descriptors and the live heap blocks (address to
    contents). *)
Record world := mk_world {
  w_errno : Z;
  w_open : gset Z;
  w_heap : gmap Z string
}.

Definition set_errno (e : Z) (w : world) : world :=
  mk_world e (w_open w) (w_heap w).
Definition add_open (fd : Z) (w : world) : world :=
  mk_world (w_errno w) ({[fd]} ∪ w_open w) (w_heap w).
Definition del_open (fd : Z) (w : world) : world :=
  mk_world (w_errno w) (w_open w ∖ {[fd]}) (w_heap w).
Definition heap_alloc (p : Z) (s : string) (w : world) : world :=
  mk_world (w_errno w) (w_open w) (<[p:=s]> (w_heap w)).
Definition heap_free (p : Z) (w : world) : world :=
  mk_world (w_errno w) (w_open w) (delete p (w_heap w)).

(** Answer of a system call: a value, or the error number it leaves in
    [errno]. *)
Inductive sysret (A : Type) : Type :=
| Ok (a : A)
| Err (e : Z).
Arguments Ok {A} a.
Arguments Err {A} e.

(** Modelled from the spec: [open_fd_or_get_path] (utils.c, declared in
    utils.h) is not part of direct.c.  The Dual-Access Resolver produces
    either an open descriptor, or the fully qualified path with the
    descriptor slot empty, or fails with the underlying condition code. *)
Inductive resolved : Type :=
| RDescriptor (fd : Z)
| RPath (full_path : string) (e : Z)
| RError (e : Z).

(** Everything [direct.c] calls but does not define. *)
Record platform := mk_platform {
  (** [config.h] *)
  HAVE_STATX : bool;
  (** kernel: metadata *)
  k_statx : Z -> string -> Z -> Z -> sysret statx_buf;
  k_fstat : Z -> sysret stat;
  k_fstatat : Z -> string -> Z -> sysret stat;
  (** kernel: extended attributes, by descriptor and by path (no follow) *)
  k_fgetxattr : Z -> string -> sysret string;
  k_lgetxattr : string -> string -> sysret string;
  (** libc/kernel: layer root *)
  k_realpath : string -> sysret (Z * string);
  k_open : string -> Z -> sysret Z;
  (** utils.c *)
  k_open_fd_or_get_path : ovl_layer -> string -> Z -> resolved;
  statx_to_stat : statx_buf -> stat -> stat
}.

(** ** A state monad over [world] *)

Definition M (A : Type) : Type := world -> A * world.

(** [M] is plugged into stdpp's monad notations: [x ← m; k], [mret]. *)
#[global] Instance M_ret : MRet M := fun A a w => (a, w).
#[global] Instance M_bind : MBind M :=
  fun A B k m w => let (a, w') := m w in k a w'.

Definition get_errno : M Z := fun w => (w_errno w, w).
Definition put_errno (e : Z) : M unit := fun w => (tt, set_errno e w).

(** ** The C library's [sscanf] on the format ["%d:%d:%o"] *)

Module Scanf.

Definition isspace (c : ascii) : bool :=
  let n := Z.of_nat (nat_of_ascii c) in
  (n =? 32) || ((9 <=? n) && (n <=? 13)).

(** value of [c] as a digit in [base] (8 or 10), if it is one *)
Definition digit_of (base : Z) (c : ascii) : option Z :=
  let n := Z.of_nat (nat_of_ascii c) - 48 in
  if (0 <=? n) && (n <? base) then Some n else None.

Fixpoint skip_space (s : list ascii) : list ascii :=
  match s with
  | c :: s' => if isspace c then skip_space s' else s
  | [] => []
  end.

(** longest run of digits: accumulated value, how many, what follows *)
Fixpoint scan_digits (base acc : Z) (n : nat) (s : list ascii)
  : Z * nat * list ascii :=
  match s with
  | c :: s' =>
      match digit_of base c with
      | Some d => scan_digits base (acc * base + d) (S n) s'
      | None => (acc, n, s)
      end
  | [] => (acc, n, s)
  end.

Inductive conv : Type :=
| InputFailure                       (* end of input before the field *)
| MatchFailure                       (* no number there *)
| Converted (neg : bool) (magnitude : Z) (rest : list ascii).

(** one numeric directive: white space, an optional sign, digits *)
Definition scan_number (base : Z) (s : list ascii) : conv :=
  match skip_space s with
  | [] => InputFailure
  | c :: s' =>
      let neg := Ascii.eqb c "-" in
      let body := if neg || Ascii.eqb c "+" then s' else c :: s' in
      match scan_digits base 0 0%nat body with
      | (_, O, _) => MatchFailure
      | (v, S _, rest) => Converted neg v rest
      end
  end.

(** [%d] into a 32-bit object: [strtol], then the low 32 bits (read
    back through the unsigned [uid_t]/[gid_t]) *)
Definition store_d (neg : bool) (v : Z) : Z :=
  let l := if neg then (if v >? - C.LONG_MIN then C.LONG_MIN else - v)
           else (if v >? C.LONG_MAX then C.LONG_MAX else v) in
  l mod C.UINT_MOD.

(** [%o] into [mode_t]: [strtoul] base 8, then the low 32 bits *)
Definition store_o (neg : bool) (v : Z) : Z :=
  let ul := if v >=? C.ULONG_MOD then C.ULONG_MOD - 1
            else (if neg then (- v) mod C.ULONG_MOD else v) in
  ul mod C.UINT_MOD.

(** what [sscanf (buf, "%d:%d:%o", &uid, &gid, &mode)] leaves: the
    return value and the three objects (0 stands for an object that was
    not assigned; the caller reads them only when the count is 3) *)
Record scanned := mk_scanned {
  sc_ret : Z;
  sc_uid : Z;
  sc_gid : Z;
  sc_mode : Z
}.

(** an ordinary character of the format: the next input character must be
    that one (no white space is skipped) *)
Definition expect_colon (s : list ascii) : option (list ascii) :=
  match s with
  | c :: s' => if Ascii.eqb c ":" then Some s' else None
  | [] => None
  end.

Definition sscanf_d_d_o (s : list ascii) : scanned :=
  match scan_number 10 s with
  | InputFailure => mk_scanned C.EOF 0 0 0
  | MatchFailure => mk_scanned 0 0 0 0
  | Converted n1 v1 r1 =>
      let uid := store_d n1 v1 in
      match expect_colon r1 with
      | Some r1' =>
          match scan_number 10 r1' with
          | Converted n2 v2 r2 =>
              let gid := store_d n2 v2 in
              match expect_colon r2 with
              | Some r2' =>
                  match scan_number 8 r2' with
                  | Converted n3 v3 _ =>
                      mk_scanned 3 uid gid (store_o n3 v3)
                  | _ => mk_scanned 2 uid gid 0
                  end
              | None => mk_scanned 2 uid gid 0
              end
          | _ => mk_scanned 1 uid 0 0
          end
      | None => mk_scanned 1 uid 0 0
      end
  end.

(** the C string held in a buffer: the bytes before the first NUL *)
Fixpoint c_str (s : list ascii) : list ascii :=
  match s with
  | c :: s' => if Ascii.eqb c zero then [] else c :: c_str s'
  | [] => []
  end.

End Scanf.

(** ** The calls of [direct.c] into libc, the kernel and utils.c

    Each wrapper turns an oracle's answer into what the C caller sees: the
    return value, [errno] on failure, the out-parameters, and the effect on
    the descriptor table and the heap. *)

Section Calls.
Variable P : platform.

Definition c_statx (dirfd : Z) (path : string) (flags mask : Z)
    (stx : statx_buf) : M (Z * statx_buf) :=
  match k_statx P dirfd path flags mask with
  | Ok s => mret (0, s)
  | Err e => put_errno e;; mret (-1, stx)
  end.

Definition c_fstat (fd : Z) (st : stat) : M (Z * stat) :=
  match k_fstat P fd with
  | Ok s => mret (0, s)
  | Err e => put_errno e;; mret (-1, st)
  end.

Definition c_fstatat (dirfd : Z) (path : string) (st : stat) (flags : Z)
    : M (Z * stat) :=
  match k_fstatat P dirfd path flags with
  | Ok s => mret (0, s)
  | Err e => put_errno e;; mret (-1, st)
  end.

(** [getxattr] family: the value is copied out when it fits in [size]
    bytes; a longer one is [ERANGE]; a [size] of 0 only asks for the
    length. *)
Definition xattr_copy_out (r : sysret string) (size : Z) : M (Z * string) :=
  match r with
  | Ok v =>
      let len := Z.of_nat (String.length v) in
      if size =? 0 then mret (len, EmptyString)
      else if len <=? size then mret (len, v)
      else put_errno C.ERANGE;; mret (-1, EmptyString)
  | Err e => put_errno e;; mret (-1, EmptyString)
  end.

Definition c_fgetxattr (fd : Z) (name : string) (size : Z) : M (Z * string) :=
  xattr_copy_out (k_fgetxattr P fd name) size.

Definition c_lgetxattr (path name : string) (size : Z) : M (Z * string) :=
  xattr_copy_out (k_lgetxattr P path name) size.

(** [realpath (path, NULL)]: a fresh heap block, or NULL *)
Definition c_realpath (path : string) : M Z :=
  match k_realpath P path with
  | Ok (p, s) => fun w => (p, heap_alloc p s w)
  | Err e => put_errno e;; mret C.NULL
  end.

Definition c_free (p : Z) : M unit := fun w => (tt, heap_free p w).

Definition c_open (path : string) (flags : Z) : M Z :=
  match k_open P path flags with
  | Ok fd => fun w => (fd, add_open fd w)
  | Err e => put_errno e;; mret (-1)
  end.

Definition c_close (fd : Z) : M unit := fun w => (tt, del_open fd w).

(** [cleanup_close]: runs when the variable goes out of scope *)
Definition cleanup_close (fd : Z) : M unit :=
  if 0 <=? fd then c_close fd else mret tt.

(** [open_fd_or_get_path (l, path, out, &fd, flags)]: the return value,
    [*fd] and [out] *)
Definition c_open_fd_or_get_path (l : ovl_layer) (path : string) (flags : Z)
    : M (Z * Z * string) :=
  match k_open_fd_or_get_path P l path flags with
  | RDescriptor fd =>
      fun w => ((fd, fd, EmptyString), if 0 <=? fd then add_open fd w else w)
  | RPath full e => put_errno e;; mret (0, -1, full)
  | RError e => put_errno e;; mret (-1, -1, EmptyString)
  end.

End Calls.

(** ** direct.c *)

Section Direct.
Variable P : platform.

(** lines 132-134: the three assignments that put the record into the
    stat result *)
Definition override_apply (uid gid mode : Z) (st : stat) : stat :=
  mk_stat (st_dev st) (st_ino st)
          (Z.lor (Z.land (st_mode st) C.S_IFMT) mode)
          (st_nlink st) uid gid (st_rdev st) (st_size st).

(** lines 98-121: fetch the attribute through the descriptor in hand, or
    through what the resolver produces.  Yields [ret], the buffer and
    [cleanup_fd]. *)
Definition override_fetch (l : ovl_layer) (fd : Z) (path xattr_name : string)
    : M (Z * string * Z) :=
  if 0 <=? fd then
    '(r, buf) ← c_fgetxattr P fd xattr_name (64 - 1);
    mret (r, buf, -1)
  else
    '(r, cleanup_fd, full_path) ← c_open_fd_or_get_path P l path C.O_RDONLY;
    if r <? 0 then mret (r, EmptyString, cleanup_fd)
    else
      let fd := cleanup_fd in
      '(r, buf) ← (if 0 <=? fd
                   then c_fgetxattr P fd xattr_name (64 - 1)
                   else c_lgetxattr P full_path xattr_name (64 - 1));
      mret (r, buf, cleanup_fd).

(** lines 123-136: terminate the buffer, scan it, apply *)
Definition override_decode (buf : string) (st : stat) : M (Z * stat) :=
  let sc := Scanf.sscanf_d_d_o (Scanf.c_str (list_ascii_of_string buf)) in
  if negb (Scanf.sc_ret sc =? 3) then
    put_errno C.EINVAL;; mret (-1, st)
  else
    mret (0, override_apply (Scanf.sc_uid sc) (Scanf.sc_gid sc)
                            (Scanf.sc_mode sc) st).

(** line 96: which attribute holds the record on this layer *)
Definition xattr_name_of (l : ovl_layer) : string :=
  if negb (has_privileged_stat_override l =? 0)
  then XATTR_PRIVILEGED_OVERRIDE_STAT else XATTR_OVERRIDE_STAT.

Definition override_mode (l : ovl_layer) (fd : Z) (path : string) (st : stat)
    : M (Z * stat) :=
  if (has_stat_override l =? 0) && (has_privileged_stat_override l =? 0)
  then mret (0, st)
  else
    let xattr_name := xattr_name_of l in
    '(r, buf, cleanup_fd) ← override_fetch l fd path xattr_name;
    res ← (if r <? 0 then mret (r, st) else override_decode buf st);
    cleanup_close cleanup_fd;;
    mret res.

(** the local [struct statx stx], not yet written *)
Definition stx_uninit : statx_buf := mk_statx 0 0 0 0 0 0 0 0 0 0 0.

(** the code after the [fallback:] label of [direct_fstat] *)
Definition direct_fstat_fallback (l : ovl_layer) (fd : Z) (path : string)
    (st : stat) : M (Z * stat) :=
  '(r, st) ← c_fstat P fd st;
  if negb (r =? 0) then mret (r, st)
  else override_mode l fd path st.

Definition direct_fstat (l : ovl_layer) (fd : Z) (path : string) (mask : Z)
    (st : stat) : M (Z * stat) :=
  if HAVE_STATX P then
    '(r, stx) ← c_statx P fd EmptyString
                  (Z.lor C.AT_STATX_DONT_SYNC C.AT_EMPTY_PATH) mask stx_uninit;
    e ← get_errno;
    if (r <? 0) && (e =? C.ENOSYS) then direct_fstat_fallback l fd path st
    else if r =? 0 then override_mode l fd path (statx_to_stat P stx st)
    else mret (r, st)
  else direct_fstat_fallback l fd path st.

(** the code after the [fallback:] label of [direct_statat] *)
Definition direct_statat_fallback (l : ovl_layer) (path : string) (st : stat)
    (flags : Z) : M (Z * stat) :=
  '(r, st) ← c_fstatat P (l_fd l) path st flags;
  if negb (r =? 0) then mret (r, st)
  else override_mode l (-1) path st.

Definition direct_statat (l : ovl_layer) (path : string) (st : stat)
    (flags mask : Z) : M (Z * stat) :=
  if HAVE_STATX P then
    '(r, stx) ← c_statx P (l_fd l) path
                  (Z.lor C.AT_STATX_DONT_SYNC flags) mask stx_uninit;
    e ← get_errno;
    if (r <? 0) && (e =? C.ENOSYS) then direct_statat_fallback l path st flags
    else if r =? 0 then override_mode l (-1) path (statx_to_stat P stx st)
    else mret (r, st)
  else direct_statat_fallback l path st flags.

(** [sizeof (tmp)] *)
Definition sizeof_tmp : Z := 64.

(** The diagnostic written to stderr on a failed [realpath] is not part
    of the state that is followed here. *)
Definition direct_load_data_source (l : ovl_layer) (opaque path : string)
    (n_layer : Z) : M (Z * ovl_layer) :=
  p ← c_realpath P path;
  let l := set_l_path p l in
  if l_path l =? C.NULL then mret (-1, l)
  else
    fd ← c_open P path C.O_DIRECTORY;
    let l := set_l_fd fd l in
    if l_fd l <? 0 then
      c_free (l_path l);;
      let l := set_l_path C.NULL l in
      mret (l_fd l, l)
    else
      '(r, _) ← c_fgetxattr P (l_fd l) XATTR_PRIVILEGED_OVERRIDE_STAT sizeof_tmp;
      if 0 <=? r then mret (0, set_has_privileged_stat_override 1 l)
      else
        '(r, _) ← c_fgetxattr P (l_fd l) XATTR_OVERRIDE_STAT sizeof_tmp;
        if 0 <=? r then mret (0, set_has_stat_override 1 l)
        else mret (0, l).

Definition direct_cleanup (l : ovl_layer) : M (Z * ovl_layer) :=
  mret (0, l).

Definition direct_num_of_layers (opaque path : string) : Z := 1.

Definition direct_must_be_remapped (l : ovl_layer) : bool :=
  (has_privileged_stat_override l =? 0) && (has_stat_override l =? 0).

End Direct.

(** ** Vocabulary for the statements *)

(** What the caller of an [M] computation observes besides the state of
    descriptors and heap: the value and [errno]. *)
Definition outcome {A} (x : A * world) : A * Z := (x.1, w_errno x.2).

(** The two stat entries of the capability set, [.fstat] and [.statat]. *)
Inductive stat_call : Type :=
| StatFd (fd : Z) (path : string) (mask : Z)
| StatAt (path : string) (flags mask : Z).

Section Vocabulary.
Variable P : platform.

Definition run_stat (l : ovl_layer) (c : stat_call) (st : stat)
    : M (Z * stat) :=
  match c with
  | StatFd fd path mask => direct_fstat P l fd path mask st
  | StatAt path flags mask => direct_statat P l path st flags mask
  end.

Definition run_stat_fallback (l : ovl_layer) (c : stat_call) (st : stat)
    : M (Z * stat) :=
  match c with
  | StatFd fd path mask => direct_fstat_fallback P l fd path st
  | StatAt path flags mask => direct_statat_fallback P l path st flags
  end.

(** the kernel's answer to the field-selective query the entry issues *)
Definition rich_query (l : ovl_layer) (c : stat_call) : sysret statx_buf :=
  match c with
  | StatFd fd _ mask =>
      k_statx P fd EmptyString
              (Z.lor C.AT_STATX_DONT_SYNC C.AT_EMPTY_PATH) mask
  | StatAt path flags mask =>
      k_statx P (l_fd l) path (Z.lor C.AT_STATX_DONT_SYNC flags) mask
  end.

(** the kernel's answer to the conventional query the entry issues *)
Definition plain_query (l : ovl_layer) (c : stat_call) : sysret stat :=
  match c with
  | StatFd fd _ _ => k_fstat P fd
  | StatAt path flags _ => k_fstatat P (l_fd l) path flags
  end.

(** the descriptor and path handed on to [override_mode] *)
Definition call_fd (c : stat_call) : Z :=
  match c with StatFd fd _ _ => fd | StatAt _ _ _ => -1 end.
Definition call_path (c : stat_call) : string :=
  match c with StatFd _ path _ => path | StatAt path _ _ => path end.

(** Steps 1-2 of the retrieval protocol: the raw stat result when the rich
    query answers, or when it is unavailable (not compiled in, or ENOSYS)
    and the conventional query answers; [None] when they fail. *)
Definition raw_stat (l : ovl_layer) (c : stat_call) (st : stat) : option stat :=
  if HAVE_STATX P then
    match rich_query l c with
    | Ok stx => Some (statx_to_stat P stx st)
    | Err e =>
        if e =? C.ENOSYS then
          match plain_query l c with Ok s => Some s | Err _ => None end
        else None
    end
  else match plain_query l c with Ok s => Some s | Err _ => None end.

(** The kernel's answer for attribute [name] of the target entry, through
    the access form in use: the descriptor in hand, else the descriptor or
    the path the resolver produces; [None] when the entry is not reached. *)
Definition target_xattr (l : ovl_layer) (fd : Z) (path name : string)
    : option (sysret string) :=
  if 0 <=? fd then Some (k_fgetxattr P fd name)
  else
    match k_open_fd_or_get_path P l path C.O_RDONLY with
    | RDescriptor fd' =>
        if 0 <=? fd' then Some (k_fgetxattr P fd' name) else None
    | RPath full _ => Some (k_lgetxattr P full name)
    | RError _ => None
    end.

(** The override attribute of the entry a stat call is about. *)
Definition override_xattr (l : ovl_layer) (c : stat_call)
    : option (sysret string) :=
  target_xattr l (call_fd c) (call_path c) (xattr_name_of l).

(** The load-time probe of the layer root: the record under [name] can be
    fetched from [fd] into the 64-byte probe buffer. *)
Definition probe_finds (fd : Z) (name : string) : bool :=
  match k_fgetxattr P fd name with
  | Ok v => Z.of_nat (String.length v) <=? sizeof_tmp
  | Err _ => false
  end.

End Vocabulary.

(** An override record exists on the entry open at [fd] under [name]. *)
Definition record_present (P : platform) (fd : Z) (name : string) : Prop :=
  exists v, k_fgetxattr P fd name = Ok v.

(** It exists and is no longer than the probe buffer of the load. *)
Definition record_fits (P : platform) (fd : Z) (name : string) : Prop :=
  exists v, k_fgetxattr P fd name = Ok v /\
            Z.of_nat (String.length v) <= sizeof_tmp.

(** The layer was loaded with an override record of either tier. *)
Definition has_override (l : ovl_layer) : Prop :=
  has_stat_override l <> 0 \/ has_privileged_stat_override l <> 0.

(** the scan of the text held in a fetched buffer *)
Definition scan_text (text : string) : Scanf.scanned :=
  Scanf.sscanf_d_d_o (Scanf.c_str (list_ascii_of_string text)).

(** *** Shapes of override text *)

Module Format.

Definition is_digit (base : Z) (c : ascii) : bool :=
  match Scanf.digit_of base c with Some _ => true | None => false end.

Definition is_sign (sg : list ascii) : Prop :=
  sg = [] \/ sg = ["-"%char] \/ sg = ["+"%char].

(** what one numeric directive consumes: white space, an optional sign, at
    least one digit *)
Definition field (base : Z) (f : list ascii) : Prop :=
  exists ws sg ds,
    f = ws ++ sg ++ ds /\
    forallb Scanf.isspace ws = true /\
    is_sign sg /\
    ds <> [] /\ forallb (is_digit base) ds = true.

(** text that begins with three such fields separated by colons, whatever
    follows the third *)
Definition starts_with_three_fields (s : list ascii) : Prop :=
  exists f1 f2 f3 rest,
    s = f1 ++ ":"%char :: f2 ++ ":"%char :: f3 ++ rest /\
    field 10 f1 /\ field 10 f2 /\ field 8 f3.

(** The format in the spec's words: exactly three fields separated by
    colons, decimal, decimal, octal, and nothing else. *)
Fixpoint split_colon (s : list ascii) : list (list ascii) :=
  match s with
  | [] => [[]]
  | c :: s' =>
      if Ascii.eqb c ":" then [] :: split_colon s'
      else match split_colon s' with
           | f :: fs => (c :: f) :: fs
           | [] => [[c]]
           end
  end.

Definition number (base : Z) (f : list ascii) : bool :=
  negb (Nat.eqb (List.length f) 0) && forallb (is_digit base) f.

Definition exactly_three_fields (s : list ascii) : bool :=
  match split_colon s with
  | [f1; f2; f3] => number 10 f1 && number 10 f2 && number 8 f3
  | _ => false
  end.

End Format.

(** ** A concrete platform

    A small layer tree used to run the code: the root is open at
    descriptor 3; descriptors 5 to 10 are entries of a layer whose
    unprivileged override record is set. *)

Module Demo.

Definition EBADF : Z := 9.
Definition ELOOP : Z := 40.

Definition dir_mode : Z := 16877.       (* 040755 *)
Definition dir_stx : statx_buf := mk_statx 2047 dir_mode 2 1000 1000 7 4096 8 1 0 0.
Definition dir_st : stat := mk_stat 2049 7 dir_mode 2 1000 1000 0 4096.
Definition st0 : stat := mk_stat 0 0 0 0 0 0 0 0.

Definition long_text : string :=
  "1000:1000:755:0123456789012345678901234567890123456789012345678901234567890123456789".

Definition demo_statx (dirfd : Z) (path : string) (flags mask : Z)
    : sysret statx_buf :=
  if dirfd =? 6 then Err C.ENOSYS
  else if dirfd =? 7 then Err C.ENOENT
  else if (dirfd =? 3) && String.eqb path "gone" then Err C.ENOENT
  else if (dirfd =? 3) && String.eqb path "old" then Err C.ENOSYS
  else Ok dir_stx.

Definition demo_fstat (fd : Z) : sysret stat :=
  if fd =? 7 then Err EBADF else Ok dir_st.

Definition demo_fstatat (dirfd : Z) (path : string) (flags : Z) : sysret stat :=
  if String.eqb path "gone" then Err C.ENOENT else Ok dir_st.

Definition demo_fgetxattr (fd : Z) (name : string) : sysret string :=
  if String.eqb name XATTR_PRIVILEGED_OVERRIDE_STAT then Err C.ENODATA
  else if fd =? 3 then Ok "0:0:755"%string
  else if fd =? 5 then Ok "0:0:100644"%string
  else if fd =? 8 then Ok "bad"%string
  else if fd =? 9 then Ok long_text
  else if fd =? 10 then Ok "1000:1000:755"%string
  else if fd =? 11 then Ok "1:2:3:4"%string
  else Err C.ENODATA.

Definition demo_lgetxattr (path name : string) : sysret string :=
  if String.eqb path "/layer/link" then Ok "0:0:777"%string
  else Err C.ENODATA.

Definition demo_resolver (l : ovl_layer) (path : string) (flags : Z) : resolved :=
  if String.eqb path "link" then RPath "/layer/link" ELOOP
  else if String.eqb path "etc" then RDescriptor 10
  else if String.eqb path "junk" then RDescriptor 8
  else if String.eqb path "big" then RDescriptor 9
  else if String.eqb path "plain" then RDescriptor 12
  else RError C.ENOENT.

Definition demo_statx_to_stat (stx : statx_buf) (st : stat) : stat :=
  mk_stat (stx_dev_major stx * 256 + stx_dev_minor stx) (stx_ino stx)
          (stx_mode stx) (stx_nlink stx) (stx_uid stx) (stx_gid stx)
          (stx_rdev_major stx * 256 + stx_rdev_minor stx) (stx_size stx).

Definition platform_with (have_statx : bool)
    (fgetxattr : Z -> string -> sysret string) : platform :=
  mk_platform have_statx demo_statx demo_fstat demo_fstatat
              fgetxattr demo_lgetxattr
              (fun p => if String.eqb p "/missing" then Err C.ENOENT
                        else Ok (4096, p))
              (fun p flags => Ok 3)
              demo_resolver demo_statx_to_stat.

Definition demo : platform := platform_with true demo_fgetxattr.

(** the same tree with both records on the layer root *)
Definition both_fgetxattr (fd : Z) (name : string) : sysret string :=
  if fd =? 3 then Ok "0:0:755"%string else demo_fgetxattr fd name.
Definition both_records : platform := platform_with true both_fgetxattr.

(** the same tree with no record on the layer root *)
Definition no_fgetxattr (fd : Z) (name : string) : sysret string :=
  Err C.ENODATA.
Definition no_record : platform := platform_with true no_fgetxattr.

(** a newly allocated, zeroed layer, and the same layer once loaded *)
Definition fresh_layer : ovl_layer := mk_layer 0 0 0 0.
Definition loaded_layer : ovl_layer := mk_layer 4096 3 1 0.
Definition plain_layer : ovl_layer := mk_layer 4096 3 0 0.

Definition w0 : world := mk_world 0 ∅ ∅.
Definition w1 : world := mk_world 0 {[3]} {[4096 := "/layer"%string]}.

(** loading the layer rooted at "/layer" on each of the three trees *)
Definition load_on (P : platform) : Z * ovl_layer * world :=
  direct_load_data_source P fresh_layer "" "/layer" 0 w0.

End Demo.

(** ** The other entries of the capability set

    [direct_getxattr], [direct_listxattr], [direct_openat],
    [direct_readlinkat] and [direct_opendir], with the calls they make. *)

Module Retry.
Definition EINTR : Z := 4.
Definition ENOMEM : Z := 12.
End Retry.

(** The calls of those entries.  A call made under [TEMP_FAILURE_RETRY] may
    be answered differently each time it is issued: its oracle takes the
    number of the attempt. *)
Record io_platform := mk_io_platform {
  k_flistxattr : Z -> sysret string;
  k_llistxattr : string -> sysret string;
  k_safe_openat : nat -> Z -> string -> Z -> Z -> sysret Z;
  k_readlinkat : nat -> Z -> string -> sysret string;
  k_fdopendir : Z -> sysret Z
}.

(** a platform with other answers of the extended-attribute calls *)
Definition with_xattrs (P : platform)
    (fgetxattr : Z -> string -> sysret string)
    (lgetxattr : string -> string -> sysret string) : platform :=
  mk_platform (HAVE_STATX P) (k_statx P) (k_fstat P) (k_fstatat P)
              fgetxattr lgetxattr (k_realpath P) (k_open P)
              (k_open_fd_or_get_path P) (statx_to_stat P).

(** glibc's [TEMP_FAILURE_RETRY (expression)]: evaluate again as long as
    the result is -1 with [errno] at EINTR.  The C loop has no bound;
    [fuel] bounds the attempts made here, [None] standing for a loop that
    is still running. *)
Fixpoint temp_failure_retry {A} (result : A -> Z) (fuel : nat)
    (expression : nat -> M A) (attempt : nat) : M (option A) :=
  match fuel with
  | O => mret None
  | S fuel' =>
      r ← expression attempt;
      e ← get_errno;
      if (result r =? -1) && (e =? Retry.EINTR)
      then temp_failure_retry result fuel' expression (S attempt)
      else mret (Some r)
  end.

Section MoreCalls.
Variable Q : io_platform.

Definition c_flistxattr (fd : Z) (size : Z) : M (Z * string) :=
  xattr_copy_out (k_flistxattr Q fd) size.

Definition c_llistxattr (path : string) (size : Z) : M (Z * string) :=
  xattr_copy_out (k_llistxattr Q path) size.

(** Modelled from the spec: [safe_openat] (utils.c) is not part of
    direct.c.  It acquires a descriptor for the path relative to the layer
    root, or fails with the underlying condition code. *)
Definition c_safe_openat (attempt : nat) (dirfd : Z) (path : string)
    (flags mode : Z) : M Z :=
  match k_safe_openat Q attempt dirfd path flags mode with
  | Ok fd => fun w => (fd, if 0 <=? fd then add_open fd w else w)
  | Err e => put_errno e;; mret (-1)
  end.

(** [readlinkat]: as many bytes of the target as fit in [bufsiz], no
    terminator; a [bufsiz] of 0 is EINVAL *)
Definition c_readlinkat (attempt : nat) (dirfd : Z) (path : string)
    (bufsiz : Z) : M (Z * string) :=
  match k_readlinkat Q attempt dirfd path with
  | Ok target =>
      if bufsiz <=? 0 then put_errno C.EINVAL;; mret (-1, EmptyString)
      else
        let n := Z.min (Z.of_nat (String.length target)) bufsiz in
        mret (n, String.substring 0 (Z.to_nat n) target)
  | Err e => put_errno e;; mret (-1, EmptyString)
  end.

(** [fdopendir]: the stream, or NULL; the stream object itself belongs to
    libc and is not followed in the heap *)
Definition c_fdopendir (fd : Z) : M Z :=
  match k_fdopendir Q fd with
  | Ok dp => mret dp
  | Err e => put_errno e;; mret C.NULL
  end.

End MoreCalls.

Section DirectMore.
Variable P : platform.
Variable Q : io_platform.

(** lines 46-62; the second component is what was written to [buf] *)
Definition direct_listxattr (l : ovl_layer) (path : string) (size : Z)
    : M (Z * string) :=
  '(r, fd, full_path) ← c_open_fd_or_get_path P l path C.O_RDONLY;
  res ← (if r <? 0 then mret (r, EmptyString)
         else if 0 <=? fd then c_flistxattr Q fd size
         else c_llistxattr Q full_path size);
  cleanup_close fd;;
  mret res.

(** lines 64-80 *)
Definition direct_getxattr (l : ovl_layer) (path name : string) (size : Z)
    : M (Z * string) :=
  '(r, fd, full_path) ← c_open_fd_or_get_path P l path C.O_RDONLY;
  res ← (if r <? 0 then mret (r, EmptyString)
         else if 0 <=? fd then c_fgetxattr P fd name size
         else c_lgetxattr P full_path name size);
  cleanup_close fd;;
  mret res.

(** lines 201-218: the stream, NULL on failure *)
Definition direct_opendir (fuel : nat) (l : ovl_layer) (path : string)
    : M (option Z) :=
  r ← temp_failure_retry id fuel
        (fun i => c_safe_openat Q i (l_fd l) path C.O_DIRECTORY 0) 0%nat;
  match r with
  | None => mret None
  | Some cleanup_fd =>
      if cleanup_fd <? 0 then
        cleanup_close cleanup_fd;; mret (Some C.NULL)
      else
        dp ← c_fdopendir Q cleanup_fd;
        if dp =? C.NULL then
          cleanup_close cleanup_fd;; mret (Some C.NULL)
        else
          let cleanup_fd := -1 in
          cleanup_close cleanup_fd;; mret (Some dp)
  end.

(** lines 226-230 *)
Definition direct_openat (fuel : nat) (l : ovl_layer) (path : string)
    (flags mode : Z) : M (option Z) :=
  temp_failure_retry id fuel
    (fun i => c_safe_openat Q i (l_fd l) path flags mode) 0%nat.

(** lines 232-236: the count and what was written to [buf] *)
Definition direct_readlinkat (fuel : nat) (l : ovl_layer) (path : string)
    (bufsiz : Z) : M (option (Z * string)) :=
  temp_failure_retry fst fuel
    (fun i => c_readlinkat Q i (l_fd l) path bufsiz) 0%nat.

End DirectMore.

(** *** Vocabulary for the retried calls *)

(** An answer that ends the retry loop: anything but EINTR. *)
Definition settles {A} (r : sysret A) : bool :=
  match r with
  | Ok _ => true
  | Err e => negb (e =? Retry.EINTR)
  end.

(** The first [n] attempts are all interrupted. *)
Definition interrupted_before {A} (answer : nat -> sysret A) (n : nat) : Prop :=
  forall i, (i < n)%nat -> answer i = Err Retry.EINTR.

(** The descriptor the resolver would produce is not one already open. *)
Definition resolver_fresh (P : platform) (l : ovl_layer) (path : string)
    (w : world) : Prop :=
  forall fd', k_open_fd_or_get_path P l path C.O_RDONLY = RDescriptor fd' ->
              fd' ∉ w_open w.

(** What the resolver and the release around a fetch do to descriptors and
    heap: nothing, or the resolver's descriptor is added to the table and
    taken out again. *)
Definition released (P : platform) (l : ovl_layer) (path : string)
    (w w' : world) : Prop :=
  w_heap w' = w_heap w /\
  (w_open w' = w_open w \/
   exists fd', k_open_fd_or_get_path P l path C.O_RDONLY = RDescriptor fd' /\
               w_open w' = ({[fd']} ∪ w_open w) ∖ {[fd']}).

(** ** A concrete platform for the other entries *)

Module DemoIO.

Definition io_safe_openat (attempt : nat) (dirfd : Z) (path : string)
    (flags mode : Z) : sysret Z :=
  if String.eqb path "slow" then
    (if Nat.ltb attempt 2 then Err Retry.EINTR else Ok 20)
  else if String.eqb path "stuck" then Err Retry.EINTR
  else if String.eqb path "dir" then Ok 21
  else if String.eqb path "file" then Ok 22
  else Err C.ENOENT.

Definition io_readlinkat (attempt : nat) (dirfd : Z) (path : string)
    : sysret string :=
  if String.eqb path "link" then
    (if Nat.ltb attempt 1 then Err Retry.EINTR else Ok "target/of/link"%string)
  else Err C.EINVAL.

Definition io_fdopendir (fd : Z) : sysret Z :=
  if fd =? 21 then Ok 9000
  else if fd =? 20 then Ok 9001
  else Err C.ENOTDIR.

Definition io : io_platform :=
  mk_io_platform
    (fun fd => if fd =? 10 then Ok "user.fuseoverlayfs.override_stat"%string
               else Err C.ENODATA)
    (fun p => Ok EmptyString)
    io_safe_openat io_readlinkat io_fdopendir.

(** the root record is exactly 64 bytes long *)
Definition text64 : string :=
  "0:0:755:ABCDEFGHIJKLMNOPQRSTUVWXYZabcdefghijklmnopqrstuvwxyz0123".
Definition wide_fgetxattr (fd : Z) (name : string) : sysret string :=
  if String.eqb name XATTR_PRIVILEGED_OVERRIDE_STAT then Ok text64
  else Err C.ENODATA.
Definition wide_record : platform := Demo.platform_with true wide_fgetxattr.

(** every entry carries a record that is white space only *)
Definition blank_record : platform :=
  Demo.platform_with true (fun fd name => Ok "  "%string).

(** the privileged record of the root is 65 bytes long: a uid written
    with 61 leading zeros *)
Definition text65 : string :=
  "0000000000000000000000000000000000000000000000000000000000000:0:7".
Definition long_fgetxattr (fd : Z) (name : string) : sysret string :=
  if String.eqb name XATTR_PRIVILEGED_OVERRIDE_STAT then Ok text65
  else Err C.ENODATA.
Definition long_root_record : platform :=
  Demo.platform_with true long_fgetxattr.

(** the layer root does not resolve / does not open as a directory *)
Definition unresolved : platform :=
  mk_platform true Demo.demo_statx Demo.demo_fstat Demo.demo_fstatat
              Demo.demo_fgetxattr Demo.demo_lgetxattr
              (fun p => Err C.ENOENT) (fun p flags => Ok 3)
              Demo.demo_resolver Demo.demo_statx_to_stat.

End DemoIO.

(** ** Basic facts *)

Ltac unfold_M :=
  unfold outcome, mbind, M_bind, mret, M_ret, put_errno, get_errno in *;
  simpl in *.
Ltac run_M := unfold cleanup_close, c_close in *; unfold_M.

Lemma land_lor_S_IFMT (m mode : Z) :
  Z.land (Z.lor (Z.land m C.S_IFMT) mode) C.S_IFMT
  = Z.lor (Z.land m C.S_IFMT) (Z.land mode C.S_IFMT).
Proof.
  rewrite Z.land_lor_distr_l, <- Z.land_assoc, Z.land_diag. reflexivity.
Qed.

Lemma ldiff_lor_S_IFMT (m mode : Z) :
  Z.ldiff (Z.lor (Z.land m C.S_IFMT) mode) C.S_IFMT = Z.ldiff mode C.S_IFMT.
Proof.
  apply Z.bits_inj'. intros n Hn.
  rewrite !Z.ldiff_spec, Z.lor_spec, Z.land_spec.
  destruct (Z.testbit m n), (Z.testbit mode n), (Z.testbit C.S_IFMT n);
    reflexivity.
Qed.

Lemma land_lor_perm (m mode : Z) :
  Z.land (Z.lor (Z.land m C.S_IFMT) mode) 4095 = Z.land mode 4095.
Proof.
  rewrite Z.land_lor_distr_l, <- Z.land_assoc.
  replace (Z.land C.S_IFMT 4095) with 0 by reflexivity.
  rewrite Z.land_0_r. apply Z.lor_0_l.
Qed.

(** ** [override_mode] *)

Section OverrideMode.
Variable P : platform.

Lemma has_override_test (l : ovl_layer) :
  has_override l ->
  (has_stat_override l =? 0) && (has_privileged_stat_override l =? 0) = false.
Proof.
  intros [H | H]; apply Z.eqb_neq in H; rewrite H;
    [reflexivity | apply andb_false_r].
Qed.

Lemma override_mode_no_record l fd path st w :
  has_stat_override l = 0 -> has_privileged_stat_override l = 0 ->
  override_mode P l fd path st w = ((0, st), w).
Proof.
  intros H1 H2. unfold override_mode. rewrite H1, H2. reflexivity.
Qed.

(** Once the target's attribute is reached, the call is: copy the value
    out with capacity 63, decode unless that failed, release the
    descriptor the resolver may have produced. *)
Lemma override_mode_shape l fd path st w r :
  has_override l ->
  target_xattr P l fd path (xattr_name_of l) = Some r ->
  exists w1 cfd,
    override_mode P l fd path st w
    = (x ← xattr_copy_out r 63;
       res ← (if x.1 <? 0 then mret (x.1, st) else override_decode x.2 st);
       cleanup_close cfd;;
       mret res) w1.
Proof.
  intros Hl Ht. unfold override_mode. rewrite (has_override_test _ Hl).
  unfold override_fetch, target_xattr in *.
  destruct (0 <=? fd) eqn:Hfd.
  - injection Ht as <-.
    exists w, (-1). unfold c_fgetxattr. run_M.
    destruct (xattr_copy_out _ _ w) as [[n buf] w2]. reflexivity.
  - unfold c_open_fd_or_get_path.
    destruct (k_open_fd_or_get_path P l path C.O_RDONLY) as [fd' | full e | e];
      [ | | discriminate Ht].
    + destruct (0 <=? fd') eqn:Hfd'; [ | discriminate Ht].
      injection Ht as <-.
      assert (Hneg : (fd' <? 0) = false)
        by (apply Z.ltb_ge; apply Z.leb_le; exact Hfd').
      exists (add_open fd' w), fd'. unfold c_fgetxattr. run_M.
      rewrite Hfd', Hneg. simpl. change (64 - 1) with 63.
      destruct (xattr_copy_out _ _ _) as [[n buf] w2]. simpl.
      rewrite Hfd'. reflexivity.
    + injection Ht as <-.
      exists (set_errno e w), (-1). unfold c_lgetxattr. run_M.
      destruct (xattr_copy_out _ _ _) as [[n buf] w2]. reflexivity.
Qed.

Lemma cleanup_close_errno fd w : w_errno (cleanup_close fd w).2 = w_errno w.
Proof. unfold cleanup_close. destruct (0 <=? fd); reflexivity. Qed.

Ltac after_cleanup :=
  match goal with
  | |- context [cleanup_close ?fd ?w] =>
      let H := fresh "Hc" in
      pose proof (cleanup_close_errno fd w) as H;
      destruct (cleanup_close fd w) as [[] ?]; simpl in *;
      try rewrite H
  end.

Lemma override_mode_fetch_error l fd path st w e :
  has_override l ->
  target_xattr P l fd path (xattr_name_of l) = Some (Err e) ->
  outcome (override_mode P l fd path st w) = ((-1, st), e).
Proof.
  intros Hl Ht.
  destruct (override_mode_shape l fd path st w _ Hl Ht) as (w1 & cfd & ->).
  unfold outcome. unfold_M. after_cleanup. reflexivity.
Qed.

Lemma override_mode_too_long l fd path st w text :
  has_override l ->
  target_xattr P l fd path (xattr_name_of l) = Some (Ok text) ->
  63 < Z.of_nat (String.length text) ->
  outcome (override_mode P l fd path st w) = ((-1, st), C.ERANGE).
Proof.
  intros Hl Ht Hlen.
  destruct (override_mode_shape l fd path st w _ Hl Ht) as (w1 & cfd & ->).
  unfold outcome, xattr_copy_out. unfold_M.
  assert (Hle : (Z.of_nat (String.length text) <=? 63) = false)
    by (apply Z.leb_gt; exact Hlen).
  rewrite Hle. simpl. after_cleanup. reflexivity.
Qed.

Lemma override_mode_decodes l fd path st w text :
  has_override l ->
  target_xattr P l fd path (xattr_name_of l) = Some (Ok text) ->
  Z.of_nat (String.length text) <= 63 ->
  exists w1 cfd,
    override_mode P l fd path st w
    = (res ← override_decode text st; cleanup_close cfd;; mret res) w1.
Proof.
  intros Hl Ht Hlen.
  destruct (override_mode_shape l fd path st w _ Hl Ht) as (w1 & cfd & ->).
  exists w1, cfd. unfold xattr_copy_out. unfold_M.
  apply Z.leb_le in Hlen. rewrite Hlen. simpl.
  assert (Hneg : (Z.of_nat (String.length text) <? 0) = false)
    by (apply Z.ltb_ge; lia).
  rewrite Hneg. reflexivity.
Qed.

Lemma override_mode_malformed l fd path st w text :
  has_override l ->
  target_xattr P l fd path (xattr_name_of l) = Some (Ok text) ->
  Z.of_nat (String.length text) <= 63 ->
  Scanf.sc_ret (scan_text text) <> 3 ->
  outcome (override_mode P l fd path st w) = ((-1, st), C.EINVAL).
Proof.
  intros Hl Ht Hlen Hsc.
  destruct (override_mode_decodes l fd path st w text Hl Ht Hlen)
    as (w1 & cfd & ->).
  unfold override_decode. fold (scan_text text).
  apply Z.eqb_neq in Hsc. rewrite Hsc. unfold_M.
  after_cleanup. reflexivity.
Qed.

Lemma override_mode_applies l fd path st w text :
  has_override l ->
  target_xattr P l fd path (xattr_name_of l) = Some (Ok text) ->
  Z.of_nat (String.length text) <= 63 ->
  Scanf.sc_ret (scan_text text) = 3 ->
  (override_mode P l fd path st w).1
  = (0, override_apply (Scanf.sc_uid (scan_text text))
                       (Scanf.sc_gid (scan_text text))
                       (Scanf.sc_mode (scan_text text)) st).
Proof.
  intros Hl Ht Hlen Hsc.
  destruct (override_mode_decodes l fd path st w text Hl Ht Hlen)
    as (w1 & cfd & ->).
  unfold override_decode. fold (scan_text text).
  rewrite Hsc. unfold_M. destruct (cleanup_close cfd w1). reflexivity.
Qed.

End OverrideMode.

(** ** The stat entries *)

Section Stat.
Variable P : platform.

(** With the rich query compiled in and answering ENOSYS, the entry runs
    its fallback block. *)
Lemma run_stat_enosys l c st w :
  HAVE_STATX P = true -> rich_query P l c = Err C.ENOSYS ->
  run_stat P l c st w = run_stat_fallback P l c st (set_errno C.ENOSYS w).
Proof.
  intros Hx Hq.
  destruct c as [fd path mask | path flags mask]; simpl in *;
    unfold direct_fstat, direct_statat, c_statx; rewrite Hx, Hq; reflexivity.
Qed.

Lemma run_stat_fallback_ok l c st w raw :
  plain_query P l c = Ok raw ->
  run_stat_fallback P l c st w
  = override_mode P l (call_fd c) (call_path c) raw w.
Proof.
  intros Hq.
  destruct c as [fd path mask | path flags mask]; simpl in *;
    unfold direct_fstat_fallback, direct_statat_fallback, c_fstat, c_fstatat;
    rewrite Hq; reflexivity.
Qed.

Lemma run_stat_fallback_err l c st w e :
  plain_query P l c = Err e ->
  run_stat_fallback P l c st w = ((-1, st), set_errno e w).
Proof.
  intros Hq.
  destruct c as [fd path mask | path flags mask]; simpl in *;
    unfold direct_fstat_fallback, direct_statat_fallback, c_fstat, c_fstatat;
    rewrite Hq; reflexivity.
Qed.

Lemma run_stat_rich_ok l c st w stx :
  HAVE_STATX P = true -> rich_query P l c = Ok stx ->
  run_stat P l c st w
  = override_mode P l (call_fd c) (call_path c) (statx_to_stat P stx st) w.
Proof.
  intros Hx Hq.
  destruct c as [fd path mask | path flags mask]; simpl in *;
    unfold direct_fstat, direct_statat, c_statx; rewrite Hx, Hq; reflexivity.
Qed.

Lemma run_stat_rich_err l c st w e :
  HAVE_STATX P = true -> rich_query P l c = Err e -> e <> C.ENOSYS ->
  run_stat P l c st w = ((-1, st), set_errno e w).
Proof.
  intros Hx Hq He. apply Z.eqb_neq in He.
  destruct c as [fd path mask | path flags mask]; simpl in *;
    unfold direct_fstat, direct_statat, c_statx; rewrite Hx, Hq;
    unfold_M; rewrite He; reflexivity.
Qed.

Lemma run_stat_no_statx l c st w :
  HAVE_STATX P = false ->
  run_stat P l c st w = run_stat_fallback P l c st w.
Proof.
  intros Hx.
  destruct c as [fd path mask | path flags mask]; simpl;
    unfold direct_fstat, direct_statat; rewrite Hx; reflexivity.
Qed.

(** When steps 1-2 yield [raw], what is left of the call is
    [override_mode] on [raw]. *)
Lemma run_stat_raw l c st w raw :
  raw_stat P l c st = Some raw ->
  exists w1,
    run_stat P l c st w
    = override_mode P l (call_fd c) (call_path c) raw w1.
Proof.
  unfold raw_stat. intros Hraw.
  destruct (HAVE_STATX P) eqn:Hx.
  - destruct (rich_query P l c) as [stx | e] eqn:Hq.
    + injection Hraw as <-. exists w. apply run_stat_rich_ok; assumption.
    + destruct (e =? C.ENOSYS) eqn:He; [ | discriminate Hraw].
      apply Z.eqb_eq in He. subst e.
      destruct (plain_query P l c) as [s | e'] eqn:Hp; [ | discriminate Hraw].
      injection Hraw as <-. exists (set_errno C.ENOSYS w).
      rewrite run_stat_enosys by assumption.
      apply run_stat_fallback_ok. exact Hp.
  - destruct (plain_query P l c) as [s | e'] eqn:Hp; [ | discriminate Hraw].
    injection Hraw as <-. exists w.
    rewrite run_stat_no_statx by assumption.
    apply run_stat_fallback_ok. exact Hp.
Qed.

End Stat.

(** ** The override record in the stat result *)

(** C6. Applying an override record twice is the same as applying it once:
    [apply (r, apply (r, s)) = apply (r, s)] for every record and every
    stat result. *)
Theorem override_apply_idempotent (uid gid mode : Z) (s : stat) :
  override_apply uid gid mode (override_apply uid gid mode s)
  = override_apply uid gid mode s.
Proof.
  unfold override_apply. simpl. f_equal.
  rewrite land_lor_S_IFMT, <- Z.lor_assoc. f_equal.
  apply Z.bits_inj'. intros n _.
  rewrite Z.lor_spec, Z.land_spec.
  destruct (Z.testbit mode n), (Z.testbit C.S_IFMT n); reflexivity.
Qed.

(** C1, as the code has it. For every stat call (by descriptor or by path)
    on a layer with an override record whose attribute is fetched and
    decoded, the call succeeds and in its result the owner id and the group
    id are the record's, every bit of the mode outside the file-type field
    (the permission bits among them) is the record's, and the file-type
    field is the physical entry's file-type bits OR-ed with whatever
    file-type bits the record's mode carries: it equals the physical
    entry's when the record's mode has none. *)
Theorem override_applied_fields
    (P : platform) (l : ovl_layer) (c : stat_call) (st : stat) (w : world)
    (raw : stat) (text : string) :
  has_override l ->
  raw_stat P l c st = Some raw ->
  override_xattr P l c = Some (Ok text) ->
  Z.of_nat (String.length text) <= 63 ->
  Scanf.sc_ret (scan_text text) = 3 ->
  exists st',
    (run_stat P l c st w).1 = (0, st') /\
    st_uid st' = Scanf.sc_uid (scan_text text) /\
    st_gid st' = Scanf.sc_gid (scan_text text) /\
    Z.ldiff (st_mode st') C.S_IFMT
      = Z.ldiff (Scanf.sc_mode (scan_text text)) C.S_IFMT /\
    Z.land (st_mode st') 4095 = Z.land (Scanf.sc_mode (scan_text text)) 4095 /\
    Z.land (st_mode st') C.S_IFMT
      = Z.lor (Z.land (st_mode raw) C.S_IFMT)
              (Z.land (Scanf.sc_mode (scan_text text)) C.S_IFMT) /\
    (Z.land (Scanf.sc_mode (scan_text text)) C.S_IFMT = 0 ->
     Z.land (st_mode st') C.S_IFMT = Z.land (st_mode raw) C.S_IFMT).
Proof.
  intros Hl Hraw Hx Hlen Hsc.
  destruct (run_stat_raw P l c st w raw Hraw) as [w1 ->].
  eexists. split.
  - apply override_mode_applies; eassumption.
  - unfold override_apply; simpl.
    repeat split.
    + apply ldiff_lor_S_IFMT.
    + apply land_lor_perm.
    + apply land_lor_S_IFMT.
    + intros H0. rewrite land_lor_S_IFMT, H0. apply Z.lor_0_r.
Qed.

Lemma override_applied_fields_witness :
  has_override Demo.loaded_layer /\
  raw_stat Demo.demo Demo.loaded_layer (StatAt "etc" 0 2047) Demo.st0
    = Some (Demo.demo_statx_to_stat Demo.dir_stx Demo.st0) /\
  override_xattr Demo.demo Demo.loaded_layer (StatAt "etc" 0 2047)
    = Some (Ok "1000:1000:755"%string) /\
  exists st',
    (run_stat Demo.demo Demo.loaded_layer (StatAt "etc" 0 2047)
              Demo.st0 Demo.w1).1 = (0, st') /\
    st_uid st' = 1000 /\ st_gid st' = 1000 /\
    Z.land (st_mode st') 4095 = 493 /\
    Z.land (st_mode st') C.S_IFMT = C.S_IFDIR.
Proof.
  split; [left; simpl; lia | ].
  split; [reflexivity | ].
  split; [reflexivity | ].
  destruct (override_applied_fields Demo.demo Demo.loaded_layer
              (StatAt "etc" 0 2047) Demo.st0 Demo.w1
              (Demo.demo_statx_to_stat Demo.dir_stx Demo.st0)
              "1000:1000:755")
    as (st' & Hr & Hu & Hg & _ & Hp & _ & Ht);
    [left; simpl; lia | reflexivity | reflexivity | simpl; lia
    | reflexivity | ].
  exists st'.
  split; [exact Hr | ].
  split; [exact Hu | ].
  split; [exact Hg | ].
  split; [exact Hp | ].
  apply Ht. reflexivity.
Defined.

(** C1 as stated fails: a directory whose override text is "0:0:100644"
    comes back with the file-type bits of a socket (0140000), not with the
    directory's (0040000). *)
Lemma override_type_bits_counterexample :
  has_override Demo.loaded_layer /\
  raw_stat Demo.demo Demo.loaded_layer (StatFd 5 "" 2047) Demo.st0
    = Some (Demo.demo_statx_to_stat Demo.dir_stx Demo.st0) /\
  override_xattr Demo.demo Demo.loaded_layer (StatFd 5 "" 2047)
    = Some (Ok "0:0:100644"%string) /\
  Scanf.sc_ret (scan_text "0:0:100644") = 3 /\
  exists st',
    (run_stat Demo.demo Demo.loaded_layer (StatFd 5 "" 2047)
              Demo.st0 Demo.w1).1 = (0, st') /\
    Z.land (st_mode (Demo.demo_statx_to_stat Demo.dir_stx Demo.st0)) C.S_IFMT
      = 16384 /\
    Z.land (st_mode st') C.S_IFMT = 49152 /\
    Z.land (st_mode st') C.S_IFMT
      <> Z.land (st_mode (Demo.demo_statx_to_stat Demo.dir_stx Demo.st0))
                C.S_IFMT.
Proof.
  split; [left; simpl; lia | ].
  repeat (split; [reflexivity | ]).
  eexists. split; [reflexivity | ].
  split; [reflexivity | ].
  split; [reflexivity | ].
  vm_compute. discriminate.
Qed.

(** ** Layers and entries without a record *)

(** C2, as the code has it. On a layer loaded without an override record
    (both flags clear), whenever the metadata query of steps 1-2 succeeds
    the stat call succeeds and returns the raw stat result unchanged, and
    the attribute is not consulted.  On a layer loaded with an override
    record, a failing fetch of the attribute on the target entry, the
    attribute being absent (ENODATA) included, makes the stat call fail
    with that error. *)
Theorem stat_without_override_record
    (P : platform) (l : ovl_layer) (c : stat_call) (st : stat) (w : world)
    (raw : stat) :
  raw_stat P l c st = Some raw ->
  (has_stat_override l = 0 -> has_privileged_stat_override l = 0 ->
   (run_stat P l c st w).1 = (0, raw)) /\
  (has_override l ->
   forall e, override_xattr P l c = Some (Err e) ->
             outcome (run_stat P l c st w) = ((-1, raw), e)).
Proof.
  intros Hraw.
  destruct (run_stat_raw P l c st w raw Hraw) as [w1 ->].
  split.
  - intros H1 H2. rewrite override_mode_no_record by assumption. reflexivity.
  - intros Hl e Hx. apply override_mode_fetch_error; assumption.
Qed.

Lemma stat_without_override_record_witness :
  raw_stat Demo.demo Demo.plain_layer (StatFd 12 "" 2047) Demo.st0
    = Some (Demo.demo_statx_to_stat Demo.dir_stx Demo.st0) /\
  (run_stat Demo.demo Demo.plain_layer (StatFd 12 "" 2047) Demo.st0 Demo.w1).1
    = (0, Demo.demo_statx_to_stat Demo.dir_stx Demo.st0) /\
  has_override Demo.loaded_layer /\
  override_xattr Demo.demo Demo.loaded_layer (StatAt "plain" 0 2047)
    = Some (Err C.ENODATA) /\
  outcome (run_stat Demo.demo Demo.loaded_layer (StatAt "plain" 0 2047)
                    Demo.st0 Demo.w1)
    = ((-1, Demo.demo_statx_to_stat Demo.dir_stx Demo.st0), C.ENODATA).
Proof.
  split; [reflexivity | ].
  split.
  - apply (stat_without_override_record Demo.demo Demo.plain_layer
             (StatFd 12 "" 2047) Demo.st0 Demo.w1
             (Demo.demo_statx_to_stat Demo.dir_stx Demo.st0));
      reflexivity.
  - split; [left; simpl; lia | ].
    split; [reflexivity | ].
    apply (stat_without_override_record Demo.demo Demo.loaded_layer
             (StatAt "plain" 0 2047) Demo.st0 Demo.w1
             (Demo.demo_statx_to_stat Demo.dir_stx Demo.st0));
      [reflexivity | left; simpl; lia | reflexivity].
Defined.

(** C2 as stated fails: on a layer that has an override record, an entry
    whose metadata query succeeds and that carries no override attribute
    makes the stat call fail with ENODATA. *)
Lemma absent_attribute_counterexample :
  has_override Demo.loaded_layer /\
  raw_stat Demo.demo Demo.loaded_layer (StatFd 12 "" 2047) Demo.st0
    = Some (Demo.demo_statx_to_stat Demo.dir_stx Demo.st0) /\
  k_fgetxattr Demo.demo 12 (xattr_name_of Demo.loaded_layer)
    = Err C.ENODATA /\
  outcome (run_stat Demo.demo Demo.loaded_layer (StatFd 12 "" 2047)
                    Demo.st0 Demo.w1)
    = ((-1, Demo.demo_statx_to_stat Demo.dir_stx Demo.st0), C.ENODATA).
Proof.
  split; [left; simpl; lia | ].
  repeat split; reflexivity.
Qed.

(** ** The fallback from the rich query *)

(** C3. For both stat entries, with the rich query compiled in: when it
    fails with ENOSYS the entry runs the conventional query instead, and
    what the caller gets is that query's failure, or the result of the
    override step on that query's stat result; the ENOSYS of the rich
    query is not returned.  Any other error of the rich query is returned
    as it is, with the stat buffer untouched. *)
Theorem enosys_falls_back
    (P : platform) (l : ovl_layer) (c : stat_call) (st : stat) (w : world) :
  HAVE_STATX P = true ->
  (rich_query P l c = Err C.ENOSYS ->
     run_stat P l c st w = run_stat_fallback P l c st (set_errno C.ENOSYS w) /\
     (forall raw, plain_query P l c = Ok raw ->
        run_stat P l c st w
        = override_mode P l (call_fd c) (call_path c) raw
                        (set_errno C.ENOSYS w)) /\
     (forall raw, plain_query P l c = Ok raw ->
        has_stat_override l = 0 -> has_privileged_stat_override l = 0 ->
        (run_stat P l c st w).1 = (0, raw)) /\
     (forall e, plain_query P l c = Err e ->
        outcome (run_stat P l c st w) = ((-1, st), e))) /\
  (forall e, rich_query P l c = Err e -> e <> C.ENOSYS ->
     run_stat P l c st w = ((-1, st), set_errno e w)).
Proof.
  intros Hx. split.
  - intros Hq. rewrite (run_stat_enosys P l c st w Hx Hq).
    split; [reflexivity | ].
    split; [ | split].
    + intros raw Hp. apply run_stat_fallback_ok. exact Hp.
    + intros raw Hp H1 H2.
      rewrite (run_stat_fallback_ok P l c st _ raw Hp).
      rewrite override_mode_no_record by assumption. reflexivity.
    + intros e Hp.
      rewrite (run_stat_fallback_err P l c st _ e Hp). reflexivity.
  - intros e Hq He. apply run_stat_rich_err; assumption.
Qed.

Lemma enosys_falls_back_witness :
  HAVE_STATX Demo.demo = true /\
  rich_query Demo.demo Demo.plain_layer (StatFd 6 "" 2047) = Err C.ENOSYS /\
  plain_query Demo.demo Demo.plain_layer (StatFd 6 "" 2047) = Ok Demo.dir_st /\
  (run_stat Demo.demo Demo.plain_layer (StatFd 6 "" 2047) Demo.st0 Demo.w1).1
    = (0, Demo.dir_st) /\
  rich_query Demo.demo Demo.plain_layer (StatAt "gone" 0 2047)
    = Err C.ENOENT /\
  run_stat Demo.demo Demo.plain_layer (StatAt "gone" 0 2047) Demo.st0 Demo.w1
    = ((-1, Demo.st0), set_errno C.ENOENT Demo.w1).
Proof.
  split; [reflexivity | ].
  split; [reflexivity | ].
  split; [reflexivity | ].
  split.
  - apply (enosys_falls_back Demo.demo Demo.plain_layer (StatFd 6 "" 2047)
             Demo.st0 Demo.w1); reflexivity.
  - split; [reflexivity | ].
    apply (enosys_falls_back Demo.demo Demo.plain_layer (StatAt "gone" 0 2047)
             Demo.st0 Demo.w1);
      [reflexivity | reflexivity | vm_compute; discriminate].
Defined.

(** ** Override text that is too long *)

(** C10. For both stat entries on a layer with an override record: when
    the metadata query succeeds and the target's override attribute value
    is longer than 63 bytes, the stat call fails with the error of the
    fetch (ERANGE) and the stat result is left as the raw one: no truncated
    record is applied. *)
Theorem oversized_override_fails
    (P : platform) (l : ovl_layer) (c : stat_call) (st : stat) (w : world)
    (raw : stat) (text : string) :
  has_override l ->
  raw_stat P l c st = Some raw ->
  override_xattr P l c = Some (Ok text) ->
  63 < Z.of_nat (String.length text) ->
  outcome (run_stat P l c st w) = ((-1, raw), C.ERANGE).
Proof.
  intros Hl Hraw Hx Hlen.
  destruct (run_stat_raw P l c st w raw Hraw) as [w1 ->].
  apply (override_mode_too_long P l _ _ raw w1 text); assumption.
Qed.

Lemma oversized_override_fails_witness :
  has_override Demo.loaded_layer /\
  raw_stat Demo.demo Demo.loaded_layer (StatAt "big" 0 2047) Demo.st0
    = Some (Demo.demo_statx_to_stat Demo.dir_stx Demo.st0) /\
  override_xattr Demo.demo Demo.loaded_layer (StatAt "big" 0 2047)
    = Some (Ok Demo.long_text) /\
  63 < Z.of_nat (String.length Demo.long_text) /\
  Scanf.sc_ret (scan_text Demo.long_text) = 3 /\
  outcome (run_stat Demo.demo Demo.loaded_layer (StatAt "big" 0 2047)
                    Demo.st0 Demo.w1)
    = ((-1, Demo.demo_statx_to_stat Demo.dir_stx Demo.st0), C.ERANGE).
Proof.
  split; [left; simpl; lia | ].
  split; [reflexivity | ].
  split; [reflexivity | ].
  split; [vm_compute; reflexivity | ].
  split; [reflexivity | ].
  apply (oversized_override_fails Demo.demo Demo.loaded_layer
           (StatAt "big" 0 2047) Demo.st0 Demo.w1
           (Demo.demo_statx_to_stat Demo.dir_stx Demo.st0) Demo.long_text);
    [left; simpl; lia | reflexivity | reflexivity | vm_compute; reflexivity].
Defined.

(** ** Layer lifecycle *)

Section Lifecycle.
Variable P : platform.

Lemma c_fgetxattr_probe fd name w :
  (0 <=? (c_fgetxattr P fd name sizeof_tmp w).1.1) = probe_finds P fd name.
Proof.
  unfold c_fgetxattr, probe_finds, xattr_copy_out.
  destruct (k_fgetxattr P fd name) as [v | e]; [ | reflexivity].
  change (sizeof_tmp =? 0) with false. cbv iota.
  destruct (Z.of_nat (String.length v) <=? sizeof_tmp); [ | reflexivity].
  simpl. apply Z.leb_le. lia.
Qed.

(** What a load that returns 0 has done. *)
Lemma load_success l0 opaque path n w l w' :
  direct_load_data_source P l0 opaque path n w = ((0, l), w') ->
  exists p s fd,
    k_realpath P path = Ok (p, s) /\ p <> C.NULL /\
    k_open P path C.O_DIRECTORY = Ok fd /\ 0 <= fd /\
    l_path l = p /\ l_fd l = fd /\
    has_privileged_stat_override l
      = (if probe_finds P fd XATTR_PRIVILEGED_OVERRIDE_STAT then 1
         else has_privileged_stat_override l0) /\
    has_stat_override l
      = (if probe_finds P fd XATTR_PRIVILEGED_OVERRIDE_STAT
         then has_stat_override l0
         else if probe_finds P fd XATTR_OVERRIDE_STAT then 1
              else has_stat_override l0) /\
    w_open w' = {[fd]} ∪ w_open w /\
    w_heap w' = <[p:=s]> (w_heap w).
Proof.
  unfold direct_load_data_source, c_realpath, c_open, c_free.
  destruct (k_realpath P path) as [[p s] | e]; unfold_M;
    [ | intros H; discriminate H].
  destruct (p =? C.NULL) eqn:Hp; [intros H; discriminate H | ].
  apply Z.eqb_neq in Hp.
  destruct (k_open P path C.O_DIRECTORY) as [fd | e]; simpl;
    [ | intros H; discriminate H].
  destruct (fd <? 0) eqn:Hfd.
  - intros H. apply Z.ltb_lt in Hfd. injection H as H _ _. lia.
  - apply Z.ltb_ge in Hfd.
    pose proof (c_fgetxattr_probe fd XATTR_PRIVILEGED_OVERRIDE_STAT
                  (add_open fd (heap_alloc p s w))) as Hpriv.
    destruct (c_fgetxattr P fd XATTR_PRIVILEGED_OVERRIDE_STAT _ _)
      as [[r1 b1] wa]eqn:E1.
    simpl in Hpriv. rewrite Hpriv.
    assert (Hwa : w_open wa = {[fd]} ∪ w_open w
                  /\ w_heap wa = <[p:=s]> (w_heap w)).
    { revert E1. unfold c_fgetxattr, xattr_copy_out.
      destruct (k_fgetxattr P fd XATTR_PRIVILEGED_OVERRIDE_STAT) as [v | e];
        [change (sizeof_tmp =? 0) with false; cbv iota;
         destruct (Z.of_nat (String.length v) <=? sizeof_tmp) | ];
        unfold_M; intros E; injection E as _ _ <-; split; reflexivity. }
    destruct (probe_finds P fd XATTR_PRIVILEGED_OVERRIDE_STAT) eqn:Epriv.
    + intros H. injection H as <- <-. destruct Hwa as [Ho Hh].
      exists p, s, fd. rewrite Epriv. simpl.
      repeat split; assumption || reflexivity.
    + pose proof (c_fgetxattr_probe fd XATTR_OVERRIDE_STAT wa) as Hun.
      destruct (c_fgetxattr P fd XATTR_OVERRIDE_STAT _ wa)
        as [[r2 b2] wb] eqn:E2.
      simpl in Hun. rewrite Hun.
      assert (Hwb : w_open wb = w_open wa /\ w_heap wb = w_heap wa).
      { revert E2. unfold c_fgetxattr, xattr_copy_out.
        destruct (k_fgetxattr P fd XATTR_OVERRIDE_STAT) as [v | e];
          [change (sizeof_tmp =? 0) with false; cbv iota;
           destruct (Z.of_nat (String.length v) <=? sizeof_tmp) | ];
          unfold_M; intros E; injection E as _ _ <-; split; reflexivity. }
      destruct Hwa as [Ho Hh]. destruct Hwb as [Ho' Hh'].
      destruct (probe_finds P fd XATTR_OVERRIDE_STAT) eqn:Eun;
        intros H; injection H as <- <-;
        exists p, s, fd; rewrite Epriv, Eun; simpl; rewrite Ho', Hh', Ho, Hh;
        repeat split; assumption || reflexivity.
Qed.

End Lifecycle.

Lemma probe_finds_fits (P : platform) (fd : Z) (name : string) :
  probe_finds P fd name = true <-> record_fits P fd name.
Proof.
  unfold probe_finds, record_fits. split.
  - destruct (k_fgetxattr P fd name) as [v | e]; [ | discriminate].
    intros H. apply Z.leb_le in H. exists v. split; [reflexivity | exact H].
  - intros (v & -> & H). apply Z.leb_le. exact H.
Qed.

(** C7, as the code has it. For every layer loaded successfully into a
    newly allocated (zeroed) layer record, the remap-necessity query
    returns true exactly when neither the privileged nor the unprivileged
    override record is found by the load, a record being found when it
    exists on the layer root and is at most 64 bytes long (the probe
    buffer).  So: when a privileged record of at most 64 bytes exists the
    query returns false, whether or not an unprivileged record is on the
    root as well; when neither record exists it returns true; and a record
    longer than 64 bytes counts as absent. *)
Theorem remap_iff_no_record
    (P : platform) (l0 : ovl_layer) (opaque path : string) (n : Z)
    (w : world) (l : ovl_layer) (w' : world) :
  has_stat_override l0 = 0 ->
  has_privileged_stat_override l0 = 0 ->
  direct_load_data_source P l0 opaque path n w = ((0, l), w') ->
  (direct_must_be_remapped l = true <->
     ~ record_fits P (l_fd l) XATTR_PRIVILEGED_OVERRIDE_STAT /\
     ~ record_fits P (l_fd l) XATTR_OVERRIDE_STAT) /\
  (direct_must_be_remapped l = true <->
     has_privileged_stat_override l = 0 /\ has_stat_override l = 0) /\
  (record_fits P (l_fd l) XATTR_PRIVILEGED_OVERRIDE_STAT ->
     direct_must_be_remapped l = false) /\
  (~ record_present P (l_fd l) XATTR_PRIVILEGED_OVERRIDE_STAT ->
   ~ record_present P (l_fd l) XATTR_OVERRIDE_STAT ->
     direct_must_be_remapped l = true) /\
  (forall v,
     k_fgetxattr P (l_fd l) XATTR_PRIVILEGED_OVERRIDE_STAT = Ok v ->
     sizeof_tmp < Z.of_nat (String.length v) ->
     ~ record_fits P (l_fd l) XATTR_OVERRIDE_STAT ->
     direct_must_be_remapped l = true).
Proof.
  intros H1 H2 Hload.
  destruct (load_success P l0 opaque path n w l w' Hload)
    as (p & s & fd & _ & _ & _ & _ & _ & Hfd & Hpriv & Hun & _).
  rewrite Hfd.
  assert (Hiff : direct_must_be_remapped l = true <->
            ~ record_fits P fd XATTR_PRIVILEGED_OVERRIDE_STAT /\
            ~ record_fits P fd XATTR_OVERRIDE_STAT).
  { rewrite <- !probe_finds_fits.
    unfold direct_must_be_remapped. rewrite Hpriv, Hun, H1, H2.
    destruct (probe_finds P fd XATTR_PRIVILEGED_OVERRIDE_STAT),
             (probe_finds P fd XATTR_OVERRIDE_STAT); simpl;
      split; try discriminate; try (intros [Ha Hb]; congruence);
      intros _; split; discriminate. }
  split; [exact Hiff | ].
  split.
  - unfold direct_must_be_remapped. rewrite andb_true_iff, !Z.eqb_eq.
    reflexivity.
  - split; [ | split].
    + intros Hfit. apply not_true_is_false. intros E.
      apply Hiff in E. destruct E as [E _]. contradiction.
    + intros Hp Hu. apply Hiff.
      split; intros (v & Hv & _); [apply Hp | apply Hu]; exists v; exact Hv.
    + intros v Hv Hlong Hu. apply Hiff. split; [ | exact Hu].
      intros (v' & Hv' & Hle). rewrite Hv in Hv'. injection Hv' as <-. lia.
Qed.

Lemma remap_iff_no_record_witness :
  Demo.load_on Demo.both_records
    = ((0, mk_layer 4096 3 0 1), (Demo.load_on Demo.both_records).2) /\
  record_fits Demo.both_records 3 XATTR_PRIVILEGED_OVERRIDE_STAT /\
  record_present Demo.both_records 3 XATTR_OVERRIDE_STAT /\
  direct_must_be_remapped (mk_layer 4096 3 0 1) = false /\
  Demo.load_on Demo.no_record
    = ((0, mk_layer 4096 3 0 0), (Demo.load_on Demo.no_record).2) /\
  direct_must_be_remapped (mk_layer 4096 3 0 0) = true.
Proof.
  assert (Hfit : record_fits Demo.both_records 3
                   XATTR_PRIVILEGED_OVERRIDE_STAT).
  { exists "0:0:755"%string. split; [reflexivity | vm_compute; discriminate]. }
  split; [reflexivity | ].
  split; [exact Hfit | ].
  split; [exists "0:0:755"%string; reflexivity | ].
  split.
  - apply (remap_iff_no_record Demo.both_records Demo.fresh_layer "" "/layer"
             0 Demo.w0 (mk_layer 4096 3 0 1)
             (Demo.load_on Demo.both_records).2);
      [reflexivity | reflexivity | reflexivity | exact Hfit].
  - split; [reflexivity | ].
    apply (remap_iff_no_record Demo.no_record Demo.fresh_layer "" "/layer"
             0 Demo.w0 (mk_layer 4096 3 0 0)
             (Demo.load_on Demo.no_record).2);
      [reflexivity | reflexivity | reflexivity
      | intros (v & Hv); discriminate Hv
      | intros (v & Hv); discriminate Hv].
Defined.

(** C7 as stated fails: a privileged override record of 65 bytes, three
    well-formed fields, exists on the layer root; the load returns 0 with
    both flags clear and the remap-necessity query returns true. *)
Lemma long_root_record_counterexample :
  k_fgetxattr DemoIO.long_root_record 3 XATTR_PRIVILEGED_OVERRIDE_STAT
    = Ok DemoIO.text65 /\
  String.length DemoIO.text65 = 65%nat /\
  Format.exactly_three_fields
    (Scanf.c_str (list_ascii_of_string DemoIO.text65)) = true /\
  Demo.load_on DemoIO.long_root_record
    = ((0, mk_layer 4096 3 0 0), (Demo.load_on DemoIO.long_root_record).2) /\
  direct_must_be_remapped (Demo.load_on DemoIO.long_root_record).1.2 = true.
Proof. repeat split; reflexivity. Qed.

(** C9. After every successful load into a newly allocated (zeroed) layer
    record at most one of the two override flags is set: the privileged
    flag is set exactly when the privileged probe succeeded, and the
    unprivileged flag is set only if the privileged probe failed (and then
    exactly when the unprivileged probe succeeded). *)
Theorem load_sets_one_flag
    (P : platform) (l0 : ovl_layer) (opaque path : string) (n : Z)
    (w : world) (l : ovl_layer) (w' : world) :
  has_stat_override l0 = 0 ->
  has_privileged_stat_override l0 = 0 ->
  direct_load_data_source P l0 opaque path n w = ((0, l), w') ->
  ~ (has_privileged_stat_override l <> 0 /\ has_stat_override l <> 0) /\
  (has_stat_override l <> 0 ->
     probe_finds P (l_fd l) XATTR_PRIVILEGED_OVERRIDE_STAT = false) /\
  has_privileged_stat_override l
    = (if probe_finds P (l_fd l) XATTR_PRIVILEGED_OVERRIDE_STAT
       then 1 else 0) /\
  has_stat_override l
    = (if probe_finds P (l_fd l) XATTR_PRIVILEGED_OVERRIDE_STAT then 0
       else if probe_finds P (l_fd l) XATTR_OVERRIDE_STAT then 1 else 0).
Proof.
  intros H1 H2 Hload.
  destruct (load_success P l0 opaque path n w l w' Hload)
    as (p & s & fd & _ & _ & _ & _ & _ & Hfd & Hpriv & Hun & _).
  rewrite Hfd, Hpriv, Hun, H1, H2.
  destruct (probe_finds P fd XATTR_PRIVILEGED_OVERRIDE_STAT),
           (probe_finds P fd XATTR_OVERRIDE_STAT);
    repeat split; try reflexivity; try (intros [Ha Hb]; lia);
    try (intros Ha; lia).
Qed.

Lemma load_sets_one_flag_witness :
  Demo.load_on Demo.both_records
    = ((0, mk_layer 4096 3 0 1), (Demo.load_on Demo.both_records).2) /\
  has_privileged_stat_override (mk_layer 4096 3 0 1) = 1 /\
  has_stat_override (mk_layer 4096 3 0 1) = 0 /\
  Demo.load_on Demo.demo
    = ((0, Demo.loaded_layer), (Demo.load_on Demo.demo).2) /\
  (has_stat_override Demo.loaded_layer <> 0 ->
   probe_finds Demo.demo 3 XATTR_PRIVILEGED_OVERRIDE_STAT = false).
Proof.
  split; [reflexivity | ].
  split; [reflexivity | ].
  split; [reflexivity | ].
  split; [reflexivity | ].
  apply (load_sets_one_flag Demo.demo Demo.fresh_layer "" "/layer" 0 Demo.w0
           Demo.loaded_layer (Demo.load_on Demo.demo).2);
    reflexivity.
Defined.

(** C8, as the code has it. For every successfully loaded layer the
    cleanup operation returns 0 and changes nothing: the layer record, the
    table of open descriptors and the heap are as before, so the root
    descriptor is still open and the canonical path string is still
    allocated when it returns. *)
Theorem cleanup_changes_nothing
    (P : platform) (l0 : ovl_layer) (opaque path : string) (n : Z)
    (w : world) (l : ovl_layer) (w' : world) :
  direct_load_data_source P l0 opaque path n w = ((0, l), w') ->
  direct_cleanup l w' = ((0, l), w') /\
  l_fd l ∈ w_open (direct_cleanup l w').2 /\
  is_Some (w_heap (direct_cleanup l w').2 !! l_path l).
Proof.
  intros Hload.
  destruct (load_success P l0 opaque path n w l w' Hload)
    as (p & s & fd & _ & _ & _ & _ & Hp & Hfd & _ & _ & Ho & Hh).
  split; [reflexivity | ].
  unfold direct_cleanup. simpl. rewrite Ho, Hh, Hp, Hfd. split.
  - apply elem_of_union. left. apply elem_of_singleton. reflexivity.
  - rewrite lookup_insert_eq. eauto.
Qed.

Lemma cleanup_changes_nothing_witness :
  Demo.load_on Demo.demo
    = ((0, Demo.loaded_layer), (Demo.load_on Demo.demo).2) /\
  direct_cleanup Demo.loaded_layer (Demo.load_on Demo.demo).2
    = ((0, Demo.loaded_layer), (Demo.load_on Demo.demo).2) /\
  3 ∈ w_open (direct_cleanup Demo.loaded_layer (Demo.load_on Demo.demo).2).2.
Proof.
  split; [reflexivity | ].
  destruct (cleanup_changes_nothing Demo.demo Demo.fresh_layer "" "/layer" 0
              Demo.w0 Demo.loaded_layer (Demo.load_on Demo.demo).2)
    as (Hc & Ho & _); [reflexivity | ].
  split; [exact Hc | exact Ho].
Defined.

(** C8 as stated fails: after loading the layer rooted at "/layer" and
    cleaning it up, descriptor 3 is still open and the block at 4096 still
    holds the canonical path. *)
Lemma cleanup_releases_counterexample :
  exists w' w'',
    Demo.load_on Demo.demo = ((0, Demo.loaded_layer), w') /\
    direct_cleanup Demo.loaded_layer w' = ((0, Demo.loaded_layer), w'') /\
    l_fd Demo.loaded_layer ∈ w_open w'' /\
    w_heap w'' !! l_path Demo.loaded_layer = Some "/layer"%string.
Proof.
  exists (Demo.load_on Demo.demo).2, (Demo.load_on Demo.demo).2.
  split; [reflexivity | ].
  split; [reflexivity | ].
  split.
  - apply elem_of_union. left. apply elem_of_singleton. reflexivity.
  - reflexivity.
Qed.

(** ** The scan of the override text *)

Module FormatFacts.
Import Scanf Format.

Lemma isspace_code c :
  isspace c = true -> Z.of_nat (nat_of_ascii c) <= 32.
Proof.
  unfold isspace. intros H.
  apply orb_true_iff in H. destruct H as [H | H].
  - apply Z.eqb_eq in H. lia.
  - apply andb_true_iff in H. destruct H as [_ H]. apply Z.leb_le in H. lia.
Qed.

Lemma is_digit_code base c :
  is_digit base c = true ->
  48 <= Z.of_nat (nat_of_ascii c) < 48 + base.
Proof.
  unfold is_digit, digit_of.
  destruct ((0 <=? _) && (_ <? base)) eqn:E; [ | discriminate].
  intros _. apply andb_true_iff in E. destruct E as [E1 E2].
  apply Z.leb_le in E1. apply Z.ltb_lt in E2. lia.
Qed.

Lemma eqb_code c d :
  Z.of_nat (nat_of_ascii c) <> Z.of_nat (nat_of_ascii d) ->
  Ascii.eqb c d = false.
Proof.
  intros H. destruct (Ascii.eqb_spec c d) as [-> | Hne]; [ | reflexivity].
  contradiction H. reflexivity.
Qed.

(** a digit (base at most 10) is no white space, sign or colon *)
Lemma digit_is_plain base c :
  base <= 10 -> is_digit base c = true ->
  isspace c = false /\ Ascii.eqb c "-" = false /\ Ascii.eqb c "+" = false
  /\ Ascii.eqb c ":" = false.
Proof.
  intros Hb Hd. apply is_digit_code in Hd.
  split; [ | split; [ | split]].
  - destruct (isspace c) eqn:E; [ | reflexivity].
    apply isspace_code in E. lia.
  - apply eqb_code. change (Z.of_nat (nat_of_ascii "-")) with 45. lia.
  - apply eqb_code. change (Z.of_nat (nat_of_ascii "+")) with 43. lia.
  - apply eqb_code. change (Z.of_nat (nat_of_ascii ":")) with 58. lia.
Qed.

Lemma skip_space_split s :
  exists ws, s = ws ++ skip_space s /\ forallb isspace ws = true.
Proof.
  induction s as [ | c s IH]; simpl.
  - exists []. split; reflexivity.
  - destruct (isspace c) eqn:E.
    + destruct IH as (ws & Hs & Hws). exists (c :: ws). simpl.
      rewrite E, Hws. split; [f_equal; exact Hs | reflexivity].
    + exists []. split; reflexivity.
Qed.

Lemma skip_space_app ws c r :
  forallb isspace ws = true -> isspace c = false ->
  skip_space (ws ++ c :: r) = c :: r.
Proof.
  intros Hws Hc. induction ws as [ | a ws IH]; simpl in *.
  - rewrite Hc. reflexivity.
  - apply andb_true_iff in Hws. destruct Hws as [Ha Hws].
    rewrite Ha. apply IH. exact Hws.
Qed.

Lemma scan_digits_split base s : forall acc n v m r,
  scan_digits base acc n s = (v, m, r) ->
  exists ds, s = ds ++ r /\ forallb (is_digit base) ds = true
             /\ m = (n + List.length ds)%nat.
Proof.
  induction s as [ | c s IH]; simpl; intros acc n v m r H.
  - injection H as _ <- <-. exists []. simpl. repeat split. lia.
  - destruct (digit_of base c) as [d | ] eqn:E.
    + apply IH in H. destruct H as (ds & Hs & Hds & Hm).
      exists (c :: ds). simpl. unfold is_digit at 1. rewrite E, Hds.
      repeat split; [f_equal; exact Hs | lia].
    + injection H as _ <- <-. exists []. simpl. repeat split. lia.
Qed.

Lemma scan_digits_count base s : forall acc n,
  (n <= (scan_digits base acc n s).1.2)%nat.
Proof.
  induction s as [ | c s IH]; simpl; intros acc n; [lia | ].
  destruct (digit_of base c); simpl; [ | lia].
  specialize (IH (acc * base + z) (S n)). lia.
Qed.

(** digits followed by a colon: the run stops at the colon *)
Lemma scan_digits_colon base ds r : forall acc n,
  base <= 10 -> forallb (is_digit base) ds = true ->
  exists v, scan_digits base acc n (ds ++ ":"%char :: r)
            = (v, (n + List.length ds)%nat, ":"%char :: r).
Proof.
  induction ds as [ | c ds IH]; simpl; intros acc n Hb Hds.
  - destruct (digit_of base ":") as [d | ] eqn:E.
    + assert (Hd : is_digit base ":" = true) by (unfold is_digit; rewrite E; reflexivity).
      apply is_digit_code in Hd. change (Z.of_nat (nat_of_ascii ":")) with 58 in Hd. lia.
    + exists acc. f_equal. f_equal. lia.
  - apply andb_true_iff in Hds. destruct Hds as [Hc Hds].
    unfold is_digit in Hc. destruct (digit_of base c) as [d | ]; [ | discriminate].
    destruct (IH (acc * base + d) (S n) Hb Hds) as [v Hv].
    exists v. rewrite Hv. f_equal. f_equal. lia.
Qed.

(** digits followed by anything: at least those digits are taken *)
Lemma scan_digits_app base ds r : forall acc n,
  forallb (is_digit base) ds = true ->
  (n + List.length ds <= (scan_digits base acc n (ds ++ r)).1.2)%nat.
Proof.
  induction ds as [ | c ds IH]; simpl; intros acc n Hds.
  - pose proof (scan_digits_count base r acc n). lia.
  - apply andb_true_iff in Hds. destruct Hds as [Hc Hds].
    unfold is_digit in Hc. destruct (digit_of base c) as [d | ]; [ | discriminate].
    specialize (IH (acc * base + d) (S n) Hds). lia.
Qed.

Lemma scan_number_split base s neg v r :
  scan_number base s = Converted neg v r ->
  exists f, field base f /\ s = f ++ r.
Proof.
  unfold scan_number. intros H.
  destruct (skip_space_split s) as (ws & Hs & Hws).
  destruct (skip_space s) as [ | c s'] eqn:Hsk; [discriminate | ].
  destruct (scan_digits base 0 0
              (if Ascii.eqb c "-" || Ascii.eqb c "+" then s' else c :: s'))
    as [[v' m] r'] eqn:Hd.
  destruct m as [ | k]; [discriminate | ].
  injection H as _ <- <-.
  apply scan_digits_split in Hd. destruct Hd as (ds & Hbody & Hds & Hm).
  assert (Hne : ds <> []) by (intros ->; simpl in Hm; lia).
  destruct (Ascii.eqb c "-" || Ascii.eqb c "+") eqn:Hsign.
  - exists (ws ++ [c] ++ ds). split.
    + exists ws, [c], ds. repeat split; try assumption.
      apply orb_true_iff in Hsign.
      destruct Hsign as [E | E]; apply Ascii.eqb_eq in E; subst c;
        unfold is_sign; tauto.
    + rewrite Hs. subst s'. rewrite <- app_assoc. reflexivity.
  - exists (ws ++ [] ++ ds). split.
    + exists ws, [], ds. repeat split; try assumption.
      unfold is_sign; tauto.
    + rewrite Hs. simpl. rewrite <- app_assoc, <- Hbody. reflexivity.
Qed.

(** what [scan_number] does on a field followed by [r]: it starts the
    digit run right after the white space and the sign *)
Lemma scan_number_field base ws sg ds r :
  base <= 10 ->
  forallb isspace ws = true -> is_sign sg -> ds <> [] ->
  forallb (is_digit base) ds = true ->
  exists neg,
    scan_number base (ws ++ sg ++ ds ++ r)
    = match scan_digits base 0 0 (ds ++ r) with
      | (_, O, _) => MatchFailure
      | (v, S _, rest) => Converted neg v rest
      end.
Proof.
  intros Hb Hws Hsg Hne Hds.
  destruct ds as [ | d0 ds']; [contradiction Hne; reflexivity | ].
  pose proof Hds as Hds0. simpl in Hds0.
  apply andb_true_iff in Hds0. destruct Hds0 as [Hd0 _].
  destruct (digit_is_plain base d0 Hb Hd0) as (Hsp & Hm & Hp & _).
  unfold scan_number.
  destruct Hsg as [-> | [-> | ->]].
  - exists false. simpl app at 1. rewrite <- app_comm_cons.
    rewrite (skip_space_app ws d0 (ds' ++ r) Hws Hsp).
    rewrite Hm, Hp. reflexivity.
  - exists true.
    change (ws ++ ["-"%char] ++ (d0 :: ds') ++ r)
      with (ws ++ "-"%char :: ((d0 :: ds') ++ r)).
    rewrite (skip_space_app ws "-" ((d0 :: ds') ++ r) Hws eq_refl).
    reflexivity.
  - exists false.
    change (ws ++ ["+"%char] ++ (d0 :: ds') ++ r)
      with (ws ++ "+"%char :: ((d0 :: ds') ++ r)).
    rewrite (skip_space_app ws "+" ((d0 :: ds') ++ r) Hws eq_refl).
    reflexivity.
Qed.

Lemma scan_number_colon base f r :
  base <= 10 -> field base f ->
  exists neg v,
    scan_number base (f ++ ":"%char :: r) = Converted neg v (":"%char :: r).
Proof.
  intros Hb (ws & sg & ds & -> & Hws & Hsg & Hne & Hds).
  repeat rewrite <- app_assoc.
  destruct (scan_number_field base ws sg ds (":"%char :: r) Hb Hws Hsg Hne Hds)
    as [neg ->].
  destruct (scan_digits_colon base ds r 0 0%nat Hb Hds) as [v ->].
  destruct ds as [ | d0 ds']; [contradiction Hne; reflexivity | ].
  simpl. exists neg, v. reflexivity.
Qed.

Lemma scan_number_any base f r :
  base <= 10 -> field base f ->
  exists neg v r', scan_number base (f ++ r) = Converted neg v r'.
Proof.
  intros Hb (ws & sg & ds & -> & Hws & Hsg & Hne & Hds).
  repeat rewrite <- app_assoc.
  destruct (scan_number_field base ws sg ds r Hb Hws Hsg Hne Hds)
    as [neg ->].
  pose proof (scan_digits_app base ds r 0 0%nat Hds) as Hcount.
  destruct (scan_digits base 0 0 (ds ++ r)) as [[v m] r'].
  destruct ds as [ | d0 ds']; [contradiction Hne; reflexivity | ].
  simpl in Hcount. destruct m as [ | k]; [lia | ].
  exists neg, v, r'. reflexivity.
Qed.

Lemma expect_colon_cons r : expect_colon (":"%char :: r) = Some r.
Proof. reflexivity. Qed.

Lemma expect_colon_some s r : expect_colon s = Some r -> s = ":"%char :: r.
Proof.
  destruct s as [ | c s']; simpl; [discriminate | ].
  destruct (Ascii.eqb_spec c ":") as [-> | _]; [ | discriminate].
  intros H. injection H as <-. reflexivity.
Qed.

(** The scan converts three fields exactly on the texts that begin with
    three fields. *)
Lemma sscanf_three_iff s :
  sc_ret (sscanf_d_d_o s) = 3 <-> starts_with_three_fields s.
Proof.
  split.
  - unfold sscanf_d_d_o.
    destruct (scan_number 10 s) as [ | | n1 v1 r1] eqn:E1;
      [discriminate | discriminate | ].
    destruct (expect_colon r1) as [r1' | ] eqn:C1; [ | discriminate].
    destruct (scan_number 10 r1') as [ | | n2 v2 r2] eqn:E2;
      [discriminate | discriminate | ].
    destruct (expect_colon r2) as [r2' | ] eqn:C2; [ | discriminate].
    destruct (scan_number 8 r2') as [ | | n3 v3 r3] eqn:E3;
      [discriminate | discriminate | ].
    intros _.
    apply scan_number_split in E1, E2, E3.
    destruct E1 as (f1 & Hf1 & ->). destruct E2 as (f2 & Hf2 & ->).
    destruct E3 as (f3 & Hf3 & ->).
    apply expect_colon_some in C1, C2. subst r1 r2.
    exists f1, f2, f3, r3. repeat split; assumption.
  - intros (f1 & f2 & f3 & rest & -> & Hf1 & Hf2 & Hf3).
    unfold sscanf_d_d_o.
    destruct (scan_number_colon 10 f1 (f2 ++ ":"%char :: f3 ++ rest))
      as (n1 & v1 & ->); [lia | exact Hf1 | ].
    rewrite expect_colon_cons.
    destruct (scan_number_colon 10 f2 (f3 ++ rest))
      as (n2 & v2 & ->); [lia | exact Hf2 | ].
    rewrite expect_colon_cons.
    destruct (scan_number_any 8 f3 rest) as (n3 & v3 & r3 & ->);
      [lia | exact Hf3 | ].
    reflexivity.
Qed.

Lemma split_colon_nonempty s : split_colon s <> [].
Proof.
  destruct s as [ | c s]; simpl; [discriminate | ].
  destruct (Ascii.eqb c ":"); [discriminate | ].
  destruct (split_colon s); discriminate.
Qed.

(** the first piece of a split, and what the remaining pieces split *)
Lemma split_colon_head s : forall f fs,
  split_colon s = f :: fs ->
  (fs = [] /\ s = f) \/
  (exists s', s = f ++ ":"%char :: s' /\ split_colon s' = fs).
Proof.
  induction s as [ | c s IH]; simpl; intros f fs H.
  - injection H as <- <-. left. split; reflexivity.
  - destruct (Ascii.eqb_spec c ":") as [-> | Hc].
    + injection H as <- <-. right. exists s. split; reflexivity.
    + destruct (split_colon s) as [ | g gs] eqn:E.
      * contradiction (split_colon_nonempty s E).
      * injection H as <- <-.
        destruct (IH g gs eq_refl) as [[-> ->] | (s' & -> & Hs')].
        -- left. split; reflexivity.
        -- right. exists s'. split; [reflexivity | exact Hs'].
Qed.

Lemma number_field base f : number base f = true -> field base f.
Proof.
  unfold number. intros H. apply andb_true_iff in H. destruct H as [Hn Hd].
  exists [], [], f. repeat split; try assumption.
  - unfold is_sign. tauto.
  - intros ->. discriminate Hn.
Qed.

(** text in the strict format begins with three fields (and ends there) *)
Lemma exactly_three_starts s :
  exactly_three_fields s = true -> starts_with_three_fields s.
Proof.
  unfold exactly_three_fields.
  destruct (split_colon s) as [ | f1 [ | f2 [ | f3 [ | f4 fs]]]] eqn:E;
    try discriminate.
  intros H. apply andb_true_iff in H. destruct H as [H H3].
  apply andb_true_iff in H. destruct H as [H1 H2].
  destruct (split_colon_head s _ _ E) as [[Hn _] | (s1 & -> & E1)];
    [discriminate Hn | ].
  destruct (split_colon_head s1 _ _ E1) as [[Hn _] | (s2 & -> & E2)];
    [discriminate Hn | ].
  destruct (split_colon_head s2 _ _ E2) as [[_ ->] | (s3 & _ & E3)];
    [ | contradiction (split_colon_nonempty s3 E3)].
  exists f1, f2, f3, []. rewrite app_nil_r.
  repeat split; try reflexivity; apply number_field; assumption.
Qed.

End FormatFacts.

(** The scan on a few texts: signs and white space before a field are
    taken, white space before a colon is not, an 8 is no octal digit, and
    an empty or blank text is an input failure. *)
Example scan_signs_and_blanks :
  scan_text " 1: -2: +17x" = Scanf.mk_scanned 3 1 4294967294 15.
Proof. reflexivity. Qed.

Example scan_blank_before_colon : Scanf.sc_ret (scan_text "1 :2:3") = 1.
Proof. reflexivity. Qed.

Example scan_not_octal : Scanf.sc_ret (scan_text "1:2:8") = 2.
Proof. reflexivity. Qed.

Example scan_empty : Scanf.sc_ret (scan_text "") = C.EOF.
Proof. reflexivity. Qed.

Example scan_stops_at_nul :
  scan_text (String "1" (String ":" (String "2" (String ":" (String "7"
               (String zero (String "7" EmptyString)))))))
  = Scanf.mk_scanned 3 1 2 7.
Proof. reflexivity. Qed.

(** What the decoding step returns, by the count of the scan. *)
Lemma override_decode_ok (text : string) (st : stat) (w : world) :
  Scanf.sc_ret (scan_text text) = 3 ->
  override_decode text st w
  = ((0, override_apply (Scanf.sc_uid (scan_text text))
                        (Scanf.sc_gid (scan_text text))
                        (Scanf.sc_mode (scan_text text)) st), w).
Proof.
  intros H. unfold override_decode. fold (scan_text text). rewrite H.
  reflexivity.
Qed.

Lemma override_decode_fail (text : string) (st : stat) (w : world) :
  Scanf.sc_ret (scan_text text) <> 3 ->
  override_decode text st w = ((-1, st), set_errno C.EINVAL w).
Proof.
  intros H. unfold override_decode. fold (scan_text text).
  apply Z.eqb_neq in H. rewrite H. reflexivity.
Qed.

(** C5, as the code has it. The decoder, given "1000:1000:755", yields the
    record (1000, 1000, 0755); given "bad" it fails with EINVAL.  In
    general it succeeds exactly on the texts that begin with three numeric
    fields separated by colons (each field: optional white space, an
    optional sign, one or more digits; decimal, decimal, octal), whatever
    follows the third field, and fails with EINVAL on every other text.
    Every text made of exactly three fields is among those it accepts. *)
Theorem decode_three_fields :
  scan_text "1000:1000:755" = Scanf.mk_scanned 3 1000 1000 493 /\
  (forall st w,
     override_decode "1000:1000:755" st w
     = ((0, override_apply 1000 1000 493 st), w)) /\
  (forall st w,
     override_decode "bad" st w = ((-1, st), set_errno C.EINVAL w)) /\
  (forall text st w,
     Format.starts_with_three_fields
       (Scanf.c_str (list_ascii_of_string text)) ->
     override_decode text st w
     = ((0, override_apply (Scanf.sc_uid (scan_text text))
                           (Scanf.sc_gid (scan_text text))
                           (Scanf.sc_mode (scan_text text)) st), w)) /\
  (forall text st w,
     ~ Format.starts_with_three_fields
         (Scanf.c_str (list_ascii_of_string text)) ->
     override_decode text st w = ((-1, st), set_errno C.EINVAL w)) /\
  (forall text,
     Format.exactly_three_fields (Scanf.c_str (list_ascii_of_string text))
       = true ->
     Format.starts_with_three_fields
       (Scanf.c_str (list_ascii_of_string text))).
Proof.
  split; [reflexivity | ].
  split; [intros st w; reflexivity | ].
  split; [intros st w; reflexivity | ].
  split; [ | split].
  - intros text st w H. apply override_decode_ok.
    apply FormatFacts.sscanf_three_iff. exact H.
  - intros text st w H. apply override_decode_fail.
    intros Hsc. apply H. apply FormatFacts.sscanf_three_iff. exact Hsc.
  - intros text. apply FormatFacts.exactly_three_starts.
Qed.

Lemma decode_three_fields_witness :
  Format.exactly_three_fields
    (Scanf.c_str (list_ascii_of_string "1000:1000:755")) = true /\
  override_decode "1000:1000:755" Demo.st0 Demo.w0
    = ((0, override_apply 1000 1000 493 Demo.st0), Demo.w0).
Proof.
  destruct decode_three_fields as (_ & _ & _ & Hok & _ & Hstrict).
  split; [reflexivity | ].
  apply (Hok "1000:1000:755"%string Demo.st0 Demo.w0).
  apply Hstrict. reflexivity.
Defined.

(** C5 as stated fails: "1:2:3:4" is not three fields (it has four), and
    the decoder accepts it, yielding the record (1, 2, 3). *)
Lemma four_fields_counterexample :
  Format.exactly_three_fields
    (Scanf.c_str (list_ascii_of_string "1:2:3:4")) = false /\
  scan_text "1:2:3:4" = Scanf.mk_scanned 3 1 2 3 /\
  override_decode "1:2:3:4" Demo.st0 Demo.w0
    = ((0, override_apply 1 2 3 Demo.st0), Demo.w0).
Proof. repeat split; reflexivity. Qed.

(** ** Override text that cannot be used *)

(** C4, as the code has it. For both stat entries on a layer with an
    override record, when the metadata query succeeds and the override
    attribute is present on the target: if its value is at most 63 bytes
    long and its text does not begin with three numeric fields separated
    by colons (decimal uid, decimal gid, octal mode, each after optional
    white space and sign), the stat call fails with EINVAL and does not
    return the un-overridden result as a success; if the text does begin
    with three such fields it is accepted, whatever follows them, and the
    record is applied; and a value longer than 63 bytes fails the call with
    ERANGE whatever its text. *)
Theorem malformed_override_outcome
    (P : platform) (l : ovl_layer) (c : stat_call) (st : stat) (w : world)
    (raw : stat) (text : string) :
  has_override l ->
  raw_stat P l c st = Some raw ->
  override_xattr P l c = Some (Ok text) ->
  (Z.of_nat (String.length text) <= 63 ->
   ~ Format.starts_with_three_fields
       (Scanf.c_str (list_ascii_of_string text)) ->
   outcome (run_stat P l c st w) = ((-1, raw), C.EINVAL)) /\
  (Z.of_nat (String.length text) <= 63 ->
   Format.starts_with_three_fields
     (Scanf.c_str (list_ascii_of_string text)) ->
   (run_stat P l c st w).1
   = (0, override_apply (Scanf.sc_uid (scan_text text))
                        (Scanf.sc_gid (scan_text text))
                        (Scanf.sc_mode (scan_text text)) raw)) /\
  (63 < Z.of_nat (String.length text) ->
   outcome (run_stat P l c st w) = ((-1, raw), C.ERANGE)).
Proof.
  intros Hl Hraw Hx.
  destruct (run_stat_raw P l c st w raw Hraw) as [w1 ->].
  split; [ | split].
  - intros Hlen Hno.
    apply (override_mode_malformed P l _ _ raw w1 text); try assumption.
    intros Hsc. apply Hno. apply FormatFacts.sscanf_three_iff. exact Hsc.
  - intros Hlen Hyes.
    apply (override_mode_applies P l _ _ raw w1 text); try assumption.
    apply FormatFacts.sscanf_three_iff. exact Hyes.
  - intros Hlen.
    apply (override_mode_too_long P l _ _ raw w1 text); assumption.
Qed.

Lemma malformed_override_outcome_witness :
  has_override Demo.loaded_layer /\
  raw_stat Demo.demo Demo.loaded_layer (StatFd 8 "" 2047) Demo.st0
    = Some (Demo.demo_statx_to_stat Demo.dir_stx Demo.st0) /\
  override_xattr Demo.demo Demo.loaded_layer (StatFd 8 "" 2047)
    = Some (Ok "bad"%string) /\
  ~ Format.starts_with_three_fields
      (Scanf.c_str (list_ascii_of_string "bad")) /\
  outcome (run_stat Demo.demo Demo.loaded_layer (StatFd 8 "" 2047)
                    Demo.st0 Demo.w1)
    = ((-1, Demo.demo_statx_to_stat Demo.dir_stx Demo.st0), C.EINVAL) /\
  override_xattr Demo.demo Demo.loaded_layer (StatAt "big" 0 2047)
    = Some (Ok Demo.long_text) /\
  outcome (run_stat Demo.demo Demo.loaded_layer (StatAt "big" 0 2047)
                    Demo.st0 Demo.w1)
    = ((-1, Demo.demo_statx_to_stat Demo.dir_stx Demo.st0), C.ERANGE).
Proof.
  assert (Hbad : ~ Format.starts_with_three_fields
                     (Scanf.c_str (list_ascii_of_string "bad"))).
  { intros H. apply FormatFacts.sscanf_three_iff in H.
    vm_compute in H. discriminate H. }
  split; [left; simpl; lia | ].
  split; [reflexivity | ].
  split; [reflexivity | ].
  split; [exact Hbad | ].
  split.
  - apply (malformed_override_outcome Demo.demo Demo.loaded_layer
             (StatFd 8 "" 2047) Demo.st0 Demo.w1
             (Demo.demo_statx_to_stat Demo.dir_stx Demo.st0) "bad");
      [left; simpl; lia | reflexivity | reflexivity | simpl; lia
      | exact Hbad].
  - split; [reflexivity | ].
    apply (malformed_override_outcome Demo.demo Demo.loaded_layer
             (StatAt "big" 0 2047) Demo.st0 Demo.w1
             (Demo.demo_statx_to_stat Demo.dir_stx Demo.st0) Demo.long_text);
      [left; simpl; lia | reflexivity | reflexivity
      | vm_compute; reflexivity].
Defined.

(** C4 as stated fails: the override text "1:2:3:4" is not of the form
    uid:gid:octal-mode (it has four fields), yet the stat call returns 0
    with the record (1, 2, 3) applied to the directory. *)
Lemma malformed_accepted_counterexample :
  has_override Demo.loaded_layer /\
  raw_stat Demo.demo Demo.loaded_layer (StatFd 11 "" 2047) Demo.st0
    = Some (Demo.demo_statx_to_stat Demo.dir_stx Demo.st0) /\
  override_xattr Demo.demo Demo.loaded_layer (StatFd 11 "" 2047)
    = Some (Ok "1:2:3:4"%string) /\
  Format.exactly_three_fields
    (Scanf.c_str (list_ascii_of_string "1:2:3:4")) = false /\
  (run_stat Demo.demo Demo.loaded_layer (StatFd 11 "" 2047)
            Demo.st0 Demo.w1).1
    = (0, mk_stat 2049 7 16387 2 1 2 0 4096).
Proof.
  split; [left; simpl; lia | ].
  repeat split; reflexivity.
Qed.

(** ** Descriptors and heap across the stat and attribute entries *)

Lemma xattr_copy_out_frame (r : sysret string) (size : Z) (w : world) :
  w_open (xattr_copy_out r size w).2 = w_open w /\
  w_heap (xattr_copy_out r size w).2 = w_heap w.
Proof.
  unfold xattr_copy_out. destruct r as [v | e]; [ | split; reflexivity].
  destruct (size =? 0); [split; reflexivity | ].
  destruct (Z.of_nat (String.length v) <=? size); split; reflexivity.
Qed.

Lemma override_decode_frame (buf : string) (st : stat) (w : world) :
  w_open (override_decode buf st w).2 = w_open w /\
  w_heap (override_decode buf st w).2 = w_heap w.
Proof.
  unfold override_decode.
  destruct (negb (Scanf.sc_ret _ =? 3)); split; reflexivity.
Qed.

Lemma cleanup_close_frame (fd : Z) (w : world) :
  w_heap (cleanup_close fd w).2 = w_heap w /\
  w_open (cleanup_close fd w).2
  = (if 0 <=? fd then w_open w ∖ {[fd]} else w_open w).
Proof. unfold cleanup_close. destruct (0 <=? fd); split; reflexivity. Qed.


Lemma released_subset P l path w w' :
  released P l path w w' ->
  w_heap w' = w_heap w /\ w_open w' ⊆ w_open w /\
  (resolver_fresh P l path w -> w_open w' = w_open w).
Proof.
  intros [Hh [Ho | (fd' & Hr & Ho)]]; rewrite Ho.
  - split; [exact Hh | ]. split; [reflexivity | ]. intros _. reflexivity.
  - split; [exact Hh | ]. split.
    + intros x Hx. apply elem_of_difference in Hx. destruct Hx as [Hx Hn].
      apply elem_of_union in Hx. destruct Hx as [Hx | Hx];
        [contradiction | exact Hx].
    + intros Hf. specialize (Hf fd' Hr). apply set_eq. intros x.
      rewrite elem_of_difference, elem_of_union, elem_of_singleton.
      split; [intros [[-> | Hx] Hn]; [contradiction Hn; reflexivity | exact Hx]
             | intros Hx; split; [right; exact Hx | intros ->; contradiction]].
Qed.

Lemma released_errno P l path w w' e :
  released P l path w w' -> released P l path (set_errno e w) w'.
Proof. intros H. exact H. Qed.

Section Frames.
Variable P : platform.

Lemma override_mode_released l fd path st w :
  released P l path w (override_mode P l fd path st w).2.
Proof.
  unfold override_mode.
  destruct ((has_stat_override l =? 0) && (has_privileged_stat_override l =? 0)).
  { split; [reflexivity | left; reflexivity]. }
  unfold override_fetch, c_fgetxattr, c_lgetxattr, c_open_fd_or_get_path.
  destruct (0 <=? fd).
  - unfold_M.
    pose proof (xattr_copy_out_frame (k_fgetxattr P fd (xattr_name_of l))
                  (64 - 1) w) as [Ho Hh].
    destruct (xattr_copy_out _ _ w) as [[n buf] w2]. simpl in *.
    pose proof (override_decode_frame buf st w2) as [Ho' Hh'].
    destruct (n <? 0); simpl.
    + split; [exact Hh | left; exact Ho].
    + destruct (override_decode buf st w2) as [res w3]. simpl in *.
      split; [congruence | left; congruence].
  - destruct (k_open_fd_or_get_path P l path C.O_RDONLY)
      as [fd' | full e | e] eqn:Hr; unfold_M.
    + destruct (fd' <? 0) eqn:Hneg.
      * assert (Hge : (0 <=? fd') = false)
          by (apply Z.leb_gt; apply Z.ltb_lt; exact Hneg).
        rewrite Hge. simpl. rewrite Hneg. simpl.
        unfold cleanup_close. rewrite Hge.
        split; [reflexivity | left; reflexivity].
      * assert (Hge : (0 <=? fd') = true)
          by (apply Z.leb_le; apply Z.ltb_ge; exact Hneg).
        rewrite Hge. simpl.
        pose proof (xattr_copy_out_frame (k_fgetxattr P fd' (xattr_name_of l))
                      (64 - 1) (add_open fd' w)) as [Ho Hh].
        destruct (xattr_copy_out _ _ (add_open fd' w)) as [[n buf] w2].
        simpl in *.
        pose proof (override_decode_frame buf st w2) as [Ho' Hh'].
        unfold cleanup_close. rewrite Hge.
        destruct (n <? 0); simpl.
        -- split; [simpl; exact Hh | right; exists fd'; split; [exact Hr | ]].
           simpl. rewrite Ho. reflexivity.
        -- destruct (override_decode buf st w2) as [res w3]. simpl in *.
           split; [simpl; congruence | right; exists fd'; split; [exact Hr | ]].
           simpl. rewrite Ho', Ho. reflexivity.
    + pose proof (xattr_copy_out_frame (k_lgetxattr P full (xattr_name_of l))
                    (64 - 1) (set_errno e w)) as [Ho Hh].
      destruct (xattr_copy_out _ _ (set_errno e w)) as [[n buf] w2].
      simpl in *.
      pose proof (override_decode_frame buf st w2) as [Ho' Hh'].
      destruct (n <? 0); simpl.
      * split; [exact Hh | left; exact Ho].
      * destruct (override_decode buf st w2) as [res w3]. simpl in *.
        split; [congruence | left; congruence].
    + split; [reflexivity | left; reflexivity].
Qed.

(** Before the override step a stat entry touches [errno] only. *)
Lemma run_stat_cases l c st w :
  (exists x e, run_stat P l c st w = (x, set_errno e w)) \/
  (exists raw w1, w_open w1 = w_open w /\ w_heap w1 = w_heap w /\
     run_stat P l c st w
     = override_mode P l (call_fd c) (call_path c) raw w1).
Proof.
  destruct (HAVE_STATX P) eqn:Hx.
  - destruct (rich_query P l c) as [stx | e] eqn:Hq.
    + right. exists (statx_to_stat P stx st), w.
      repeat split. apply run_stat_rich_ok; assumption.
    + destruct (Z.eq_dec e C.ENOSYS) as [-> | He].
      * rewrite (run_stat_enosys P l c st w Hx Hq).
        destruct (plain_query P l c) as [s | e'] eqn:Hp.
        -- right. exists s, (set_errno C.ENOSYS w). repeat split.
           apply run_stat_fallback_ok. exact Hp.
        -- left. exists (-1, st), e'.
           rewrite (run_stat_fallback_err P l c st _ e' Hp). reflexivity.
      * left. exists (-1, st), e. apply run_stat_rich_err; assumption.
  - rewrite (run_stat_no_statx P l c st w Hx).
    destruct (plain_query P l c) as [s | e'] eqn:Hp.
    + right. exists s, w. repeat split. apply run_stat_fallback_ok. exact Hp.
    + left. exists (-1, st), e'.
      rewrite (run_stat_fallback_err P l c st _ e' Hp). reflexivity.
Qed.

Lemma run_stat_released l c st w :
  released P l (call_path c) w (run_stat P l c st w).2.
Proof.
  destruct (run_stat_cases l c st w)
    as [(x & e & ->) | (raw & w1 & Ho & Hh & ->)].
  - split; [reflexivity | left; reflexivity].
  - pose proof (override_mode_released l (call_fd c) (call_path c) raw w1)
      as [Hh' Ho'].
    split; [congruence | ].
    destruct Ho' as [Ho' | (fd' & Hr & Ho')].
    + left. congruence.
    + right. exists fd'. split; [exact Hr | ]. rewrite Ho', Ho. reflexivity.
Qed.

End Frames.

(** X1. A stat call, by descriptor or by path, never leaves a descriptor
    open and never touches the heap, on any of its exit paths: the table
    of descriptors after the call is within the one before, and it is the
    same table when the descriptor the resolver produces is not one that
    was already open. *)
Theorem stat_releases_descriptors
    (P : platform) (l : ovl_layer) (c : stat_call) (st : stat) (w : world) :
  w_heap (run_stat P l c st w).2 = w_heap w /\
  w_open (run_stat P l c st w).2 ⊆ w_open w /\
  (resolver_fresh P l (call_path c) w ->
   w_open (run_stat P l c st w).2 = w_open w).
Proof.
  apply (released_subset P l (call_path c) w). apply run_stat_released.
Qed.

Lemma stat_releases_descriptors_witness :
  resolver_fresh Demo.demo Demo.loaded_layer "etc" Demo.w1 /\
  k_open_fd_or_get_path Demo.demo Demo.loaded_layer "etc" C.O_RDONLY
    = RDescriptor 10 /\
  w_open (run_stat Demo.demo Demo.loaded_layer (StatAt "etc" 0 2047)
                   Demo.st0 Demo.w1).2 = w_open Demo.w1.
Proof.
  assert (Hf : resolver_fresh Demo.demo Demo.loaded_layer "etc" Demo.w1).
  { intros fd' H. injection H as <-. unfold Demo.w1. simpl.
    rewrite elem_of_singleton. lia. }
  split; [exact Hf | ].
  split; [reflexivity | ].
  apply (stat_releases_descriptors Demo.demo Demo.loaded_layer
           (StatAt "etc" 0 2047) Demo.st0 Demo.w1).
  exact Hf.
Defined.

(** ** What the override step consults *)

Section Consults.
Variable P : platform.

Lemma override_mode_ignores_path l fd path path' st w :
  0 <= fd ->
  override_mode P l fd path st w = override_mode P l fd path' st w.
Proof.
  intros Hfd. apply Z.leb_le in Hfd.
  unfold override_mode, override_fetch. rewrite Hfd. reflexivity.
Qed.

Lemma override_mode_with_xattrs l fd path st w fg lg :
  (forall d, fg d (xattr_name_of l) = k_fgetxattr P d (xattr_name_of l)) ->
  (forall p, lg p (xattr_name_of l) = k_lgetxattr P p (xattr_name_of l)) ->
  override_mode (with_xattrs P fg lg) l fd path st w
  = override_mode P l fd path st w.
Proof.
  intros Hf Hl.
  unfold override_mode, override_fetch, c_fgetxattr, c_lgetxattr,
         c_open_fd_or_get_path. simpl.
  destruct ((has_stat_override l =? 0) && (has_privileged_stat_override l =? 0));
    [reflexivity | ].
  destruct (0 <=? fd).
  - rewrite Hf. reflexivity.
  - destruct (k_open_fd_or_get_path P l path C.O_RDONLY) as [fd' | full e | e];
      unfold_M.
    + destruct (fd' <? 0); [reflexivity | ].
      destruct (0 <=? fd'); [rewrite Hf | rewrite Hl]; reflexivity.
    + rewrite Hl. reflexivity.
    + reflexivity.
Qed.

End Consults.

(** X2. Stat by descriptor never looks at its path argument: with a
    descriptor in hand (non-negative) the call gives the same result and
    the same state for any two paths. *)
Theorem fstat_ignores_path
    (P : platform) (l : ovl_layer) (fd : Z) (path path' : string)
    (mask : Z) (st : stat) (w : world) :
  0 <= fd ->
  direct_fstat P l fd path mask st w = direct_fstat P l fd path' mask st w.
Proof.
  intros Hfd.
  assert (Hfb : forall w0,
            direct_fstat_fallback P l fd path st w0
            = direct_fstat_fallback P l fd path' st w0).
  { intros w0. unfold direct_fstat_fallback, c_fstat.
    destruct (k_fstat P fd) as [s | e]; unfold_M; [ | reflexivity].
    apply override_mode_ignores_path. exact Hfd. }
  unfold direct_fstat, c_statx.
  destruct (HAVE_STATX P); [ | apply Hfb].
  destruct (k_statx P fd _ _ mask) as [stx | e]; unfold_M.
  - apply override_mode_ignores_path. exact Hfd.
  - destruct (e =? C.ENOSYS); [apply Hfb | reflexivity].
Qed.

Lemma fstat_ignores_path_witness :
  0 <= 10 /\
  direct_fstat Demo.demo Demo.loaded_layer 10 "etc" 2047 Demo.st0 Demo.w1
  = direct_fstat Demo.demo Demo.loaded_layer 10 "no/such/path" 2047
                 Demo.st0 Demo.w1.
Proof.
  split; [lia | ].
  apply (fstat_ignores_path Demo.demo Demo.loaded_layer 10 "etc"
           "no/such/path" 2047 Demo.st0 Demo.w1).
  lia.
Defined.

(** X3. A stat call consults the extended-attribute store only under the
    one attribute name chosen for the layer (the privileged name when the
    privileged flag is set, else the unprivileged one): changing what the
    store holds under any other name, on any entry, changes neither the
    result nor the state after the call. *)
Theorem stat_reads_one_attribute
    (P : platform) (l : ovl_layer) (c : stat_call) (st : stat) (w : world)
    (fg : Z -> string -> sysret string)
    (lg : string -> string -> sysret string) :
  (forall d, fg d (xattr_name_of l) = k_fgetxattr P d (xattr_name_of l)) ->
  (forall p, lg p (xattr_name_of l) = k_lgetxattr P p (xattr_name_of l)) ->
  run_stat (with_xattrs P fg lg) l c st w = run_stat P l c st w.
Proof.
  intros Hf Hl.
  assert (Hov : forall fd path raw w0,
            override_mode (with_xattrs P fg lg) l fd path raw w0
            = override_mode P l fd path raw w0)
    by (intros; apply override_mode_with_xattrs; assumption).
  destruct c as [fd path mask | path flags mask]; simpl;
    unfold direct_fstat, direct_statat, direct_fstat_fallback,
           direct_statat_fallback, c_statx, c_fstat, c_fstatat; simpl;
    destruct (HAVE_STATX P).
  - destruct (k_statx P fd _ _ mask) as [stx | e]; unfold_M; [apply Hov | ].
    destruct (e =? C.ENOSYS); [ | reflexivity].
    destruct (k_fstat P fd); unfold_M; [apply Hov | reflexivity].
  - destruct (k_fstat P fd); unfold_M; [apply Hov | reflexivity].
  - destruct (k_statx P (l_fd l) path _ mask) as [stx | e]; unfold_M;
      [apply Hov | ].
    destruct (e =? C.ENOSYS); [ | reflexivity].
    destruct (k_fstatat P (l_fd l) path flags); unfold_M;
      [apply Hov | reflexivity].
  - destruct (k_fstatat P (l_fd l) path flags); unfold_M;
      [apply Hov | reflexivity].
Qed.

Lemma stat_reads_one_attribute_witness :
  xattr_name_of (mk_layer 4096 3 1 1) = XATTR_PRIVILEGED_OVERRIDE_STAT /\
  run_stat (with_xattrs DemoIO.wide_record
              (fun d n => if String.eqb n XATTR_OVERRIDE_STAT
                          then Ok "7:7:777"%string
                          else k_fgetxattr DemoIO.wide_record d n)
              (k_lgetxattr DemoIO.wide_record))
           (mk_layer 4096 3 1 1) (StatFd 5 "" 2047) Demo.st0 Demo.w1
  = run_stat DemoIO.wide_record (mk_layer 4096 3 1 1) (StatFd 5 "" 2047)
             Demo.st0 Demo.w1.
Proof.
  split; [reflexivity | ].
  apply (stat_reads_one_attribute DemoIO.wide_record (mk_layer 4096 3 1 1)
           (StatFd 5 "" 2047) Demo.st0 Demo.w1).
  - intros d. reflexivity.
  - intros p. reflexivity.
Defined.

(** ** The attribute entries *)

Section AttributeEntries.
Variable P : platform.
Variable Q : io_platform.

Lemma direct_getxattr_released l path name size w :
  released P l path w (direct_getxattr P l path name size w).2.
Proof.
  unfold direct_getxattr, c_fgetxattr, c_lgetxattr, c_open_fd_or_get_path.
  destruct (k_open_fd_or_get_path P l path C.O_RDONLY)
    as [fd' | full e | e] eqn:Hr; unfold_M.
  - destruct (fd' <? 0) eqn:Hneg.
    + assert (Hge : (0 <=? fd') = false)
        by (apply Z.leb_gt; apply Z.ltb_lt; exact Hneg).
      rewrite Hge. simpl. unfold cleanup_close. rewrite Hge.
      split; [reflexivity | left; reflexivity].
    + assert (Hge : (0 <=? fd') = true)
        by (apply Z.leb_le; apply Z.ltb_ge; exact Hneg).
      rewrite Hge. simpl.
      pose proof (xattr_copy_out_frame (k_fgetxattr P fd' name) size
                    (add_open fd' w)) as [Ho Hh].
      destruct (xattr_copy_out _ _ (add_open fd' w)) as [[n buf] w2].
      simpl in *. unfold cleanup_close. rewrite Hge. simpl.
      split; [exact Hh | right; exists fd'; split; [exact Hr | ]].
      simpl. rewrite Ho. reflexivity.
  - pose proof (xattr_copy_out_frame (k_lgetxattr P full name) size
                  (set_errno e w)) as [Ho Hh].
    destruct (xattr_copy_out _ _ (set_errno e w)) as [[n buf] w2].
    simpl in *. split; [exact Hh | left; exact Ho].
  - split; [reflexivity | left; reflexivity].
Qed.

Lemma direct_listxattr_released l path size w :
  released P l path w (direct_listxattr P Q l path size w).2.
Proof.
  unfold direct_listxattr, c_flistxattr, c_llistxattr, c_open_fd_or_get_path.
  destruct (k_open_fd_or_get_path P l path C.O_RDONLY)
    as [fd' | full e | e] eqn:Hr; unfold_M.
  - destruct (fd' <? 0) eqn:Hneg.
    + assert (Hge : (0 <=? fd') = false)
        by (apply Z.leb_gt; apply Z.ltb_lt; exact Hneg).
      rewrite Hge. simpl. unfold cleanup_close. rewrite Hge.
      split; [reflexivity | left; reflexivity].
    + assert (Hge : (0 <=? fd') = true)
        by (apply Z.leb_le; apply Z.ltb_ge; exact Hneg).
      rewrite Hge. simpl.
      pose proof (xattr_copy_out_frame (k_flistxattr Q fd') size
                    (add_open fd' w)) as [Ho Hh].
      destruct (xattr_copy_out _ _ (add_open fd' w)) as [[n buf] w2].
      simpl in *. unfold cleanup_close. rewrite Hge. simpl.
      split; [exact Hh | right; exists fd'; split; [exact Hr | ]].
      simpl. rewrite Ho. reflexivity.
  - pose proof (xattr_copy_out_frame (k_llistxattr Q full) size
                  (set_errno e w)) as [Ho Hh].
    destruct (xattr_copy_out _ _ (set_errno e w)) as [[n buf] w2].
    simpl in *. split; [exact Hh | left; exact Ho].
  - split; [reflexivity | left; reflexivity].
Qed.

End AttributeEntries.

(** X4. Attribute get and attribute list release the descriptor the
    resolver hands them on every exit path, errors included, and never
    touch the heap: the table of descriptors after either call is within
    the one before, and is the same table when the resolver's descriptor
    was not already open. *)
Theorem xattr_entries_release_descriptors
    (P : platform) (Q : io_platform) (l : ovl_layer) (path name : string)
    (size : Z) (w : world) :
  (w_heap (direct_getxattr P l path name size w).2 = w_heap w /\
   w_open (direct_getxattr P l path name size w).2 ⊆ w_open w /\
   (resolver_fresh P l path w ->
    w_open (direct_getxattr P l path name size w).2 = w_open w)) /\
  (w_heap (direct_listxattr P Q l path size w).2 = w_heap w /\
   w_open (direct_listxattr P Q l path size w).2 ⊆ w_open w /\
   (resolver_fresh P l path w ->
    w_open (direct_listxattr P Q l path size w).2 = w_open w)).
Proof.
  split.
  - apply (released_subset P l path w). apply direct_getxattr_released.
  - apply (released_subset P l path w). apply direct_listxattr_released.
Qed.

Lemma xattr_entries_release_descriptors_witness :
  resolver_fresh Demo.demo Demo.loaded_layer "etc" Demo.w1 /\
  (direct_getxattr Demo.demo Demo.loaded_layer "etc" XATTR_OVERRIDE_STAT 64
                   Demo.w1).1 = (13, "1000:1000:755"%string) /\
  w_open (direct_getxattr Demo.demo Demo.loaded_layer "etc"
                          XATTR_OVERRIDE_STAT 64 Demo.w1).2
    = w_open Demo.w1 /\
  w_open (direct_listxattr Demo.demo DemoIO.io Demo.loaded_layer "etc" 256
                           Demo.w1).2
    = w_open Demo.w1.
Proof.
  assert (Hf : resolver_fresh Demo.demo Demo.loaded_layer "etc" Demo.w1).
  { intros fd' H. injection H as <-. unfold Demo.w1. simpl.
    rewrite elem_of_singleton. lia. }
  split; [exact Hf | ].
  split; [reflexivity | ].
  destruct (xattr_entries_release_descriptors Demo.demo DemoIO.io
              Demo.loaded_layer "etc" XATTR_OVERRIDE_STAT 64 Demo.w1)
    as [(_ & _ & Hg) _].
  destruct (xattr_entries_release_descriptors Demo.demo DemoIO.io
              Demo.loaded_layer "etc" XATTR_OVERRIDE_STAT 256 Demo.w1)
    as [_ (_ & _ & Hl)].
  split; [apply Hg; exact Hf | apply Hl; exact Hf].
Defined.

(** X5. On a layer with an override record, the override step of a stat
    by path is attribute get composed with the decoder: it fetches the
    layer's override attribute of the path exactly as [direct_getxattr]
    does with a capacity of 63 bytes, returns that call's failure if it
    fails, and otherwise decodes what was fetched; result and state
    coincide. *)
Theorem override_by_path_is_getxattr
    (P : platform) (l : ovl_layer) (fd : Z) (path : string) (st : stat)
    (w : world) :
  has_override l -> fd < 0 ->
  override_mode P l fd path st w
  = (x ← direct_getxattr P l path (xattr_name_of l) 63;
     if x.1 <? 0 then mret (x.1, st) else override_decode x.2 st) w.
Proof.
  intros Hl Hfd. apply Z.leb_gt in Hfd.
  unfold override_mode. rewrite (has_override_test l Hl).
  unfold override_fetch, direct_getxattr. rewrite Hfd.
  unfold c_fgetxattr, c_lgetxattr, c_open_fd_or_get_path.
  change (64 - 1) with 63.
  destruct (k_open_fd_or_get_path P l path C.O_RDONLY) as [fd' | full e | e];
    unfold_M.
  - destruct (fd' <? 0) eqn:Hneg; simpl.
    + rewrite Hneg. simpl.
      assert (Hge : (0 <=? fd') = false)
        by (apply Z.leb_gt; apply Z.ltb_lt; exact Hneg).
      unfold cleanup_close. rewrite Hge. simpl. rewrite Hneg. reflexivity.
    + assert (Hge : (0 <=? fd') = true)
        by (apply Z.leb_le; apply Z.ltb_ge; exact Hneg).
      rewrite Hge. simpl.
      destruct (xattr_copy_out _ _ (add_open fd' w)) as [[n buf] w2]. simpl.
      unfold cleanup_close. rewrite Hge. simpl.
      destruct (n <? 0); simpl; [reflexivity | ].
      unfold override_decode.
      destruct (negb (Scanf.sc_ret _ =? 3)); reflexivity.
  - destruct (xattr_copy_out _ _ (set_errno e w)) as [[n buf] w2]. simpl.
    destruct (n <? 0); simpl; [reflexivity | ].
    destruct (override_decode buf st w2). reflexivity.
  - reflexivity.
Qed.

Lemma override_by_path_is_getxattr_witness :
  has_override Demo.loaded_layer /\
  (direct_getxattr Demo.demo Demo.loaded_layer "link"
                   (xattr_name_of Demo.loaded_layer) 63 Demo.w1).1
    = (7, "0:0:777"%string) /\
  (override_mode Demo.demo Demo.loaded_layer (-1) "link" Demo.dir_st
                 Demo.w1).1
    = (0, override_apply 0 0 511 Demo.dir_st).
Proof.
  split; [left; simpl; lia | ].
  split; [reflexivity | ].
  rewrite (override_by_path_is_getxattr Demo.demo Demo.loaded_layer (-1)
             "link" Demo.dir_st Demo.w1);
    [reflexivity | left; simpl; lia | lia].
Defined.

(** ** Loading a layer: failure and success *)

Section LoadPaths.
Variable P : platform.

Lemma c_fgetxattr_frame fd name size w :
  w_open (c_fgetxattr P fd name size w).2 = w_open w /\
  w_heap (c_fgetxattr P fd name size w).2 = w_heap w.
Proof. unfold c_fgetxattr. apply xattr_copy_out_frame. Qed.

(** Past the two opens, a load returns 0 whatever the probes answer. *)
Lemma load_past_open l0 opaque path n w p s fd :
  k_realpath P path = Ok (p, s) -> p <> C.NULL ->
  k_open P path C.O_DIRECTORY = Ok fd -> 0 <= fd ->
  (direct_load_data_source P l0 opaque path n w).1.1 = 0.
Proof.
  intros Hr Hp Ho Hfd.
  unfold direct_load_data_source, c_realpath, c_open. rewrite Hr. unfold_M.
  apply Z.eqb_neq in Hp. rewrite Hp, Ho. simpl.
  assert (Hneg : (fd <? 0) = false) by (apply Z.ltb_ge; exact Hfd).
  rewrite Hneg.
  destruct (c_fgetxattr P fd XATTR_PRIVILEGED_OVERRIDE_STAT sizeof_tmp _)
    as [[r1 b1] wa].
  destruct (0 <=? r1); [reflexivity | ].
  destruct (c_fgetxattr P fd XATTR_OVERRIDE_STAT sizeof_tmp wa)
    as [[r2 b2] wb].
  destruct (0 <=? r2); reflexivity.
Qed.

End LoadPaths.



(** X7. A load succeeds exactly when the path resolves and opens as a
    directory: it returns 0 if and only if [realpath] yields a non-null
    string and [open] a non-negative descriptor, whatever the two probes
    of the layer root answer (a probe failing for any reason only means no
    record); otherwise it returns a negative value. *)
Theorem load_succeeds_iff
    (P : platform) (l0 : ovl_layer) (opaque path : string) (n : Z)
    (w : world) :
  ((direct_load_data_source P l0 opaque path n w).1.1 = 0 <->
   exists p s fd,
     k_realpath P path = Ok (p, s) /\ p <> C.NULL /\
     k_open P path C.O_DIRECTORY = Ok fd /\ 0 <= fd) /\
  (direct_load_data_source P l0 opaque path n w).1.1 <= 0.
Proof.
  split.
  - split.
    + intros H0.
      destruct (direct_load_data_source P l0 opaque path n w)
        as [[r l] w'] eqn:E. simpl in H0. subst r.
      destruct (load_success P l0 opaque path n w l w' E)
        as (p & s & fd & Hr & Hp & Ho & Hfd & _).
      exists p, s, fd. repeat split; assumption.
    + intros (p & s & fd & Hr & Hp & Ho & Hfd).
      apply (load_past_open P l0 opaque path n w p s fd); assumption.
  - destruct (k_realpath P path) as [[p s] | e] eqn:Er.
    + destruct (Z.eq_dec p C.NULL) as [Hp | Hp].
      * unfold direct_load_data_source, c_realpath. rewrite Er. unfold_M.
        apply Z.eqb_eq in Hp. rewrite Hp. simpl. lia.
      * destruct (k_open P path C.O_DIRECTORY) as [fd | e] eqn:Eo.
        -- destruct (Z_lt_le_dec fd 0) as [Hneg | Hge].
           ++ unfold direct_load_data_source, c_realpath, c_open.
              rewrite Er. unfold_M. apply Z.eqb_neq in Hp. rewrite Hp, Eo.
              simpl. apply Z.ltb_lt in Hneg. rewrite Hneg. simpl.
              apply Z.ltb_lt in Hneg. lia.
           ++ rewrite (load_past_open P l0 opaque path n w p s fd Er Hp Eo Hge).
              lia.
        -- unfold direct_load_data_source, c_realpath, c_open.
           rewrite Er. unfold_M. apply Z.eqb_neq in Hp. rewrite Hp, Eo.
           simpl. lia.
    + unfold direct_load_data_source, c_realpath. rewrite Er. unfold_M. lia.
Qed.

(** X8. The probe at load time and the fetch at stat time disagree by one
    byte.  A privileged record of exactly 64 bytes on the layer root is
    found by the load (its probe buffer holds 64 bytes), so the layer is
    flagged and the remap query answers false; but a stat of that root
    through its descriptor then fails with ERANGE, the fetch having room
    for 63 bytes only. *)
Theorem root_record_of_64_bytes
    (P : platform) (l0 : ovl_layer) (opaque path : string) (n : Z)
    (w : world) (l : ovl_layer) (w' : world)
    (v : string) (spath : string) (mask : Z) (st raw : stat) (w2 : world) :
  direct_load_data_source P l0 opaque path n w = ((0, l), w') ->
  k_fgetxattr P (l_fd l) XATTR_PRIVILEGED_OVERRIDE_STAT = Ok v ->
  String.length v = 64%nat ->
  raw_stat P l (StatFd (l_fd l) spath mask) st = Some raw ->
  has_privileged_stat_override l = 1 /\
  direct_must_be_remapped l = false /\
  outcome (run_stat P l (StatFd (l_fd l) spath mask) st w2)
  = ((-1, raw), C.ERANGE).
Proof.
  intros Hload Hv Hlen Hraw.
  destruct (load_success P l0 opaque path n w l w' Hload)
    as (p & s & fd & _ & _ & _ & Hfd & _ & Hlfd & Hpriv & _).
  assert (Hprobe : probe_finds P fd XATTR_PRIVILEGED_OVERRIDE_STAT = true).
  { unfold probe_finds. rewrite <- Hlfd, Hv, Hlen. reflexivity. }
  rewrite Hprobe in Hpriv.
  split; [exact Hpriv | ].
  split; [unfold direct_must_be_remapped; rewrite Hpriv; reflexivity | ].
  destruct (run_stat_raw P l _ st w2 raw Hraw) as [w1 ->].
  apply (override_mode_too_long P l _ _ raw w1 v).
  - right. rewrite Hpriv. lia.
  - simpl. unfold target_xattr, xattr_name_of. rewrite Hpriv. simpl.
    rewrite Hlfd. apply Z.leb_le in Hfd. rewrite Hfd. rewrite <- Hlfd, Hv.
    reflexivity.
  - rewrite Hlen. lia.
Qed.

Lemma root_record_of_64_bytes_witness :
  Demo.load_on DemoIO.wide_record
    = ((0, mk_layer 4096 3 0 1), (Demo.load_on DemoIO.wide_record).2) /\
  String.length DemoIO.text64 = 64%nat /\
  outcome (run_stat DemoIO.wide_record (mk_layer 4096 3 0 1)
                    (StatFd 3 "" 2047) Demo.st0 Demo.w1)
  = ((-1, Demo.demo_statx_to_stat Demo.dir_stx Demo.st0), C.ERANGE).
Proof.
  split; [reflexivity | ].
  split; [reflexivity | ].
  apply (root_record_of_64_bytes DemoIO.wide_record Demo.fresh_layer ""
           "/layer" 0 Demo.w0 (mk_layer 4096 3 0 1)
           (Demo.load_on DemoIO.wide_record).2 DemoIO.text64 "" 2047
           Demo.st0 (Demo.demo_statx_to_stat Demo.dir_stx Demo.st0) Demo.w1);
    reflexivity.
Defined.

(** ** More on the text of a record *)

Lemma skip_space_blank (s : list ascii) :
  forallb Scanf.isspace s = true -> Scanf.skip_space s = [].
Proof.
  induction s as [ | c s IH]; simpl; [reflexivity | ].
  intros H. apply andb_true_iff in H. destruct H as [Hc Hs].
  rewrite Hc. apply IH. exact Hs.
Qed.

Lemma c_str_app_nul (a b : list ascii) :
  Scanf.c_str (a ++ zero :: b) = Scanf.c_str a.
Proof.
  induction a as [ | c a IH]; simpl; [reflexivity | ].
  destruct (Ascii.eqb c zero); [reflexivity | ]. rewrite IH. reflexivity.
Qed.

Lemma list_ascii_of_string_append (a b : string) :
  list_ascii_of_string (String.append a b)
  = list_ascii_of_string a ++ list_ascii_of_string b.
Proof.
  induction a as [ | c a IH]; simpl; [reflexivity | ].
  rewrite IH. reflexivity.
Qed.

(** X9. An override attribute that is empty, or holds white space only
    (up to its first NUL byte), is an input failure of the scan (EOF, no
    field converted) and makes the stat call fail with EINVAL, like any
    other text that does not scan. *)
Theorem blank_override_fails
    (P : platform) (l : ovl_layer) (c : stat_call) (st : stat) (w : world)
    (raw : stat) (text : string) :
  has_override l ->
  raw_stat P l c st = Some raw ->
  override_xattr P l c = Some (Ok text) ->
  Z.of_nat (String.length text) <= 63 ->
  forallb Scanf.isspace (Scanf.c_str (list_ascii_of_string text)) = true ->
  Scanf.sc_ret (scan_text text) = C.EOF /\
  outcome (run_stat P l c st w) = ((-1, raw), C.EINVAL).
Proof.
  intros Hl Hraw Hx Hlen Hblank.
  assert (Hsc : Scanf.sc_ret (scan_text text) = C.EOF).
  { unfold scan_text, Scanf.sscanf_d_d_o, Scanf.scan_number.
    rewrite (skip_space_blank _ Hblank). reflexivity. }
  split; [exact Hsc | ].
  destruct (run_stat_raw P l c st w raw Hraw) as [w1 ->].
  apply (override_mode_malformed P l _ _ raw w1 text); try assumption.
  rewrite Hsc. unfold C.EOF. lia.
Qed.

Lemma blank_override_fails_witness :
  has_override Demo.loaded_layer /\
  override_xattr DemoIO.blank_record Demo.loaded_layer (StatFd 5 "" 2047)
    = Some (Ok "  "%string) /\
  outcome (run_stat DemoIO.blank_record Demo.loaded_layer (StatFd 5 "" 2047)
                    Demo.st0 Demo.w1)
  = ((-1, Demo.demo_statx_to_stat Demo.dir_stx Demo.st0), C.EINVAL).
Proof.
  split; [left; simpl; lia | ].
  split; [reflexivity | ].
  apply (blank_override_fails DemoIO.blank_record Demo.loaded_layer
           (StatFd 5 "" 2047) Demo.st0 Demo.w1
           (Demo.demo_statx_to_stat Demo.dir_stx Demo.st0) "  ");
    [left; simpl; lia | reflexivity | reflexivity | simpl; lia | reflexivity].
Defined.

(** X10. The decoder reads the fetched value as a C string: whatever
    follows the first NUL byte of the value is ignored, so a value and the
    same value continued by a NUL byte and anything else decode alike. *)
Theorem decode_stops_at_nul (a b : string) (st : stat) (w : world) :
  override_decode (String.append a (String zero b)) st w
  = override_decode a st w.
Proof.
  unfold override_decode.
  rewrite list_ascii_of_string_append.
  change (list_ascii_of_string (String zero b))
    with (zero :: list_ascii_of_string b).
  rewrite c_str_app_nul. reflexivity.
Qed.

(** ** What a stat call returns *)

Section StatResult.
Variable P : platform.

Lemma run_stat_no_raw l c st w :
  raw_stat P l c st = None -> (run_stat P l c st w).1 = (-1, st).
Proof.
  unfold raw_stat. intros Hraw.
  destruct (HAVE_STATX P) eqn:Hx.
  - destruct (rich_query P l c) as [stx | e] eqn:Hq; [discriminate Hraw | ].
    destruct (e =? C.ENOSYS) eqn:He.
    + apply Z.eqb_eq in He. subst e.
      destruct (plain_query P l c) as [s | e'] eqn:Hp; [discriminate Hraw | ].
      rewrite (run_stat_enosys P l c st w Hx Hq).
      rewrite (run_stat_fallback_err P l c st _ e' Hp). reflexivity.
    + apply Z.eqb_neq in He.
      rewrite (run_stat_rich_err P l c st w e Hx Hq He). reflexivity.
  - destruct (plain_query P l c) as [s | e'] eqn:Hp; [discriminate Hraw | ].
    rewrite (run_stat_no_statx P l c st w Hx).
    rewrite (run_stat_fallback_err P l c st _ e' Hp). reflexivity.
Qed.

(** the entry is not reached: the resolver failed *)
Lemma override_mode_unreached l fd path st w :
  has_override l ->
  target_xattr P l fd path (xattr_name_of l) = None ->
  (override_mode P l fd path st w).1.1 < 0 /\
  (override_mode P l fd path st w).1.2 = st.
Proof.
  intros Hl Ht. unfold override_mode. rewrite (has_override_test l Hl).
  unfold override_fetch, target_xattr in *.
  destruct (0 <=? fd); [discriminate Ht | ].
  unfold c_open_fd_or_get_path.
  destruct (k_open_fd_or_get_path P l path C.O_RDONLY) as [fd' | full e | e];
    [ | discriminate Ht | ]; unfold_M.
  - destruct (0 <=? fd') eqn:Hge; [discriminate Ht | ].
    apply Z.leb_gt in Hge.
    assert (Hneg : (fd' <? 0) = true) by (apply Z.ltb_lt; exact Hge).
    rewrite Hneg. simpl. rewrite Hneg. simpl.
    destruct (cleanup_close fd' w). simpl. split; [exact Hge | reflexivity].
  - split; [lia | reflexivity].
Qed.

(** every way [override_mode] can end, on a layer with a record *)
Lemma override_mode_result l fd path st w :
  has_override l ->
  ((override_mode P l fd path st w).1.1 < 0 /\
   (override_mode P l fd path st w).1.2 = st /\
   ~ (exists text,
        target_xattr P l fd path (xattr_name_of l) = Some (Ok text) /\
        Z.of_nat (String.length text) <= 63 /\
        Scanf.sc_ret (scan_text text) = 3)) \/
  (exists text,
     target_xattr P l fd path (xattr_name_of l) = Some (Ok text) /\
     Z.of_nat (String.length text) <= 63 /\
     Scanf.sc_ret (scan_text text) = 3 /\
     (override_mode P l fd path st w).1
     = (0, override_apply (Scanf.sc_uid (scan_text text))
                          (Scanf.sc_gid (scan_text text))
                          (Scanf.sc_mode (scan_text text)) st)).
Proof.
  intros Hl.
  destruct (target_xattr P l fd path (xattr_name_of l)) as [[text | e] | ]
    eqn:Ht.
  - destruct (Z_le_gt_dec (Z.of_nat (String.length text)) 63) as [Hle | Hgt].
    + destruct (Z.eq_dec (Scanf.sc_ret (scan_text text)) 3) as [Hsc | Hsc].
      * right. exists text. repeat split; try assumption.
        apply override_mode_applies; assumption.
      * left.
        pose proof (override_mode_malformed P l fd path st w text Hl Ht Hle Hsc)
          as Ho.
        unfold outcome in Ho. injection Ho as Ho _. rewrite Ho. simpl.
        split; [lia | split; [reflexivity | ]].
        intros (t & Heq & _ & Hsc'). injection Heq as <-. contradiction.
    + left.
      assert (Hlt : 63 < Z.of_nat (String.length text)) by lia.
      pose proof (override_mode_too_long P l fd path st w text Hl Ht Hlt)
        as Ho.
      unfold outcome in Ho. injection Ho as Ho _. rewrite Ho. simpl.
      split; [lia | split; [reflexivity | ]].
      intros (t & Heq & Hle & _). injection Heq as <-. lia.
  - left.
    pose proof (override_mode_fetch_error P l fd path st w e Hl Ht) as Ho.
    unfold outcome in Ho. injection Ho as Ho _. rewrite Ho. simpl.
    split; [lia | split; [reflexivity | ]].
    intros (t & Heq & _). discriminate Heq.
  - left. destruct (override_mode_unreached l fd path st w Hl Ht) as [H1 H2].
    split; [exact H1 | split; [exact H2 | ]].
    intros (t & Heq & _). discriminate Heq.
Qed.

End StatResult.

(** X11. The override step changes the owner, the group and the mode and
    nothing else: whenever the metadata query of steps 1-2 yields a raw
    result, the stat buffer after the call, whether the call succeeds or
    fails, has the device, inode, link count, device-of-node and size of
    the raw result. *)
Theorem override_touches_three_fields
    (P : platform) (l : ovl_layer) (c : stat_call) (st : stat) (w : world)
    (raw : stat) :
  raw_stat P l c st = Some raw ->
  st_dev (run_stat P l c st w).1.2 = st_dev raw /\
  st_ino (run_stat P l c st w).1.2 = st_ino raw /\
  st_nlink (run_stat P l c st w).1.2 = st_nlink raw /\
  st_rdev (run_stat P l c st w).1.2 = st_rdev raw /\
  st_size (run_stat P l c st w).1.2 = st_size raw.
Proof.
  intros Hraw.
  destruct (run_stat_raw P l c st w raw Hraw) as [w1 ->].
  destruct (Z.eq_dec (has_stat_override l) 0) as [H1 | H1];
    [destruct (Z.eq_dec (has_privileged_stat_override l) 0) as [H2 | H2] | ].
  - rewrite override_mode_no_record by assumption. repeat split.
  - destruct (override_mode_result P l (call_fd c) (call_path c) raw w1)
      as [(_ & -> & _) | (text & _ & _ & _ & ->)];
      [right; exact H2 | | ]; repeat split.
  - destruct (override_mode_result P l (call_fd c) (call_path c) raw w1)
      as [(_ & -> & _) | (text & _ & _ & _ & ->)];
      [left; exact H1 | | ]; repeat split.
Qed.

Lemma override_touches_three_fields_witness :
  raw_stat Demo.demo Demo.loaded_layer (StatAt "etc" 0 2047) Demo.st0
    = Some (Demo.demo_statx_to_stat Demo.dir_stx Demo.st0) /\
  st_ino (run_stat Demo.demo Demo.loaded_layer (StatAt "etc" 0 2047)
                   Demo.st0 Demo.w1).1.2 = 7 /\
  st_size (run_stat Demo.demo Demo.loaded_layer (StatAt "etc" 0 2047)
                    Demo.st0 Demo.w1).1.2 = 4096.
Proof.
  split; [reflexivity | ].
  destruct (override_touches_three_fields Demo.demo Demo.loaded_layer
              (StatAt "etc" 0 2047) Demo.st0 Demo.w1
              (Demo.demo_statx_to_stat Demo.dir_stx Demo.st0))
    as (_ & Hi & _ & _ & Hs); [reflexivity | ].
  split; [exact Hi | exact Hs].
Defined.

(** X12. When a stat call succeeds.  It returns 0 exactly when the
    metadata query of steps 1-2 yields a raw result and either the layer
    has no override record, or the override attribute of the target is
    present, at most 63 bytes long and scans as three fields; in every
    other case it returns a negative value, never a positive one. *)
Theorem stat_succeeds_iff
    (P : platform) (l : ovl_layer) (c : stat_call) (st : stat) (w : world) :
  ((run_stat P l c st w).1.1 = 0 <->
   exists raw,
     raw_stat P l c st = Some raw /\
     ((has_stat_override l = 0 /\ has_privileged_stat_override l = 0) \/
      exists text,
        override_xattr P l c = Some (Ok text) /\
        Z.of_nat (String.length text) <= 63 /\
        Scanf.sc_ret (scan_text text) = 3)) /\
  (run_stat P l c st w).1.1 <= 0.
Proof.
  destruct (raw_stat P l c st) as [raw | ] eqn:Hraw.
  - destruct (run_stat_raw P l c st w raw Hraw) as [w1 ->].
    destruct (Z.eq_dec (has_stat_override l) 0) as [H1 | H1];
      [destruct (Z.eq_dec (has_privileged_stat_override l) 0) as [H2 | H2] | ].
    + rewrite override_mode_no_record by assumption. simpl.
      split; [ | lia]. split; [ | reflexivity].
      intros _. exists raw. split; [reflexivity | left; split; assumption].
    + assert (Hl : has_override l) by (right; exact H2).
      unfold override_xattr.
      destruct (override_mode_result P l (call_fd c) (call_path c) raw w1 Hl)
        as [(Hneg & _ & Hno) | (text & Ht & Hlen & Hsc & ->)].
      * split; [ | lia]. split; [lia | ].
        intros (raw' & _ & [[_ H0] | Hex]); [contradiction | ].
        contradiction (Hno Hex).
      * simpl. split; [ | lia]. split; [ | reflexivity].
        intros _. exists raw. split; [reflexivity | right].
        exists text. repeat split; assumption.
    + assert (Hl : has_override l) by (left; exact H1).
      unfold override_xattr.
      destruct (override_mode_result P l (call_fd c) (call_path c) raw w1 Hl)
        as [(Hneg & _ & Hno) | (text & Ht & Hlen & Hsc & ->)].
      * split; [ | lia]. split; [lia | ].
        intros (raw' & _ & [[H0 _] | Hex]); [contradiction | ].
        contradiction (Hno Hex).
      * simpl. split; [ | lia]. split; [ | reflexivity].
        intros _. exists raw. split; [reflexivity | right].
        exists text. repeat split; assumption.
  - rewrite (run_stat_no_raw P l c st w Hraw). simpl.
    split; [ | lia]. split; [lia | ].
    intros (raw & Heq & _). discriminate Heq.
Qed.

(** ** Calls retried on interruption *)

Section RetryLoop.
Context {A : Type}.
Variable result : A -> Z.
Variable expression : nat -> M A.

(** The loop hands back only a result that is not an interruption. *)
Lemma retry_not_interrupted fuel : forall k w r w',
  temp_failure_retry result fuel expression k w = (Some r, w') ->
  ~ (result r = -1 /\ w_errno w' = Retry.EINTR).
Proof.
  induction fuel as [ | fuel IH]; simpl; intros k w r w' H.
  - discriminate H.
  - unfold_M. destruct (expression k w) as [r0 w0]. simpl in H.
    destruct ((result r0 =? -1) && (w_errno w0 =? Retry.EINTR)) eqn:E.
    + apply (IH _ _ _ _ H).
    + injection H as <- <-. intros [H1 H2].
      rewrite H1, H2 in E. discriminate E.
Qed.

(** An attempt that is not an interruption ends the loop. *)
Lemma retry_step_settled fuel k w r w1 :
  expression k w = (r, w1) ->
  (result r =? -1) && (w_errno w1 =? Retry.EINTR) = false ->
  temp_failure_retry result (S fuel) expression k w = (Some r, w1).
Proof.
  intros He Hs. simpl. unfold_M. rewrite He. simpl. rewrite Hs. reflexivity.
Qed.

(** [n] interrupted attempts are skipped. *)
Lemma retry_skip n : forall k fuel w,
  (forall i w0, (k <= i < k + n)%nat ->
     exists r, expression i w0 = (r, set_errno Retry.EINTR w0)
               /\ result r = -1) ->
  (n <= fuel)%nat ->
  temp_failure_retry result fuel expression k w
  = temp_failure_retry result (fuel - n) expression (k + n)
      (match n with O => w | S _ => set_errno Retry.EINTR w end).
Proof.
  induction n as [ | n IH]; intros k fuel w Hint Hfuel.
  - rewrite Nat.sub_0_r, Nat.add_0_r. reflexivity.
  - destruct fuel as [ | fuel]; [lia | ].
    simpl temp_failure_retry at 1. unfold_M.
    destruct (Hint k w ltac:(lia)) as (r & -> & Hr). simpl.
    rewrite Hr. simpl.
    rewrite (IH (S k) fuel (set_errno Retry.EINTR w)); [ | | lia].
    + replace (S k + n)%nat with (k + S n)%nat by lia.
      replace (S fuel - S n)%nat with (fuel - n)%nat by lia.
      destruct n; reflexivity.
    + intros i w0 Hi. apply Hint. lia.
Qed.

(** If every attempt is interrupted the loop does not end. *)
Lemma retry_forever fuel : forall k w,
  (forall i w0, exists r, expression i w0 = (r, set_errno Retry.EINTR w0)
                          /\ result r = -1) ->
  (temp_failure_retry result fuel expression k w).1 = None.
Proof.
  induction fuel as [ | fuel IH]; simpl; intros k w Hint; [reflexivity | ].
  unfold_M. destruct (Hint k w) as (r & -> & Hr). simpl. rewrite Hr. simpl.
  apply IH. exact Hint.
Qed.

End RetryLoop.

Section OpenAt.
Variable Q : io_platform.

Lemma c_safe_openat_interrupted i dirfd path flags mode w :
  k_safe_openat Q i dirfd path flags mode = Err Retry.EINTR ->
  exists r, c_safe_openat Q i dirfd path flags mode w
            = (r, set_errno Retry.EINTR w) /\ id r = -1.
Proof.
  intros H. unfold c_safe_openat. rewrite H. exists (-1).
  split; reflexivity.
Qed.

(** what the retried open leaves: nothing, or the new descriptor *)
Lemma openat_loop_frame dirfd path flags mode fuel : forall k w r w',
  temp_failure_retry id fuel
    (fun i => c_safe_openat Q i dirfd path flags mode) k w = (Some r, w') ->
  w_heap w' = w_heap w /\
  ((r < 0 /\ w_open w' = w_open w) \/
   (0 <= r /\ w_open w' = {[r]} ∪ w_open w)).
Proof.
  induction fuel as [ | fuel IH]; simpl; intros k w r w' H.
  - discriminate H.
  - unfold_M. unfold c_safe_openat in H at 1.
    destruct (k_safe_openat Q k dirfd path flags mode) as [fd | e];
      unfold_M.
    + unfold id in H. destruct (fd =? -1) eqn:E1.
      * apply Z.eqb_eq in E1. subst fd. simpl in H.
        destruct (w_errno w =? Retry.EINTR).
        -- apply (IH _ _ _ _ H).
        -- injection H as <- <-. split; [reflexivity | left].
           split; [lia | reflexivity].
      * simpl in H. injection H as <- <-.
        destruct (0 <=? fd) eqn:Hge.
        -- apply Z.leb_le in Hge. split; [reflexivity | right].
           split; [exact Hge | reflexivity].
        -- apply Z.leb_gt in Hge. split; [reflexivity | left].
           split; [exact Hge | reflexivity].
    + destruct (e =? Retry.EINTR).
      * destruct (IH _ _ _ _ H) as [Hh Ho]. split; [exact Hh | exact Ho].
      * injection H as <- <-. split; [reflexivity | left].
        split; [lia | reflexivity].
Qed.

End OpenAt.

(** X13. File open retries on interruption.  [direct_openat] hands back
    only a result that is not an interruption (never -1 with EINTR), and
    then it has left the heap alone and the table of descriptors either
    unchanged (failure) or extended by the descriptor it returns.  After
    any number of interrupted attempts it returns the first other answer:
    the descriptor, or -1 with that answer's error.  If every attempt is
    interrupted it never returns. *)
Theorem openat_retries_interruptions
    (Q : io_platform) (fuel : nat) (l : ovl_layer) (path : string)
    (flags mode : Z) (w : world) :
  (forall r w',
     direct_openat Q fuel l path flags mode w = (Some r, w') ->
     ~ (r = -1 /\ w_errno w' = Retry.EINTR) /\
     w_heap w' = w_heap w /\
     ((r < 0 /\ w_open w' = w_open w) \/
      (0 <= r /\ w_open w' = {[r]} ∪ w_open w))) /\
  (forall n,
     interrupted_before
       (fun i => k_safe_openat Q i (l_fd l) path flags mode) n ->
     (n < fuel)%nat ->
     (forall fd, k_safe_openat Q n (l_fd l) path flags mode = Ok fd ->
                 0 <= fd ->
                 (direct_openat Q fuel l path flags mode w).1 = Some fd) /\
     (forall e, k_safe_openat Q n (l_fd l) path flags mode = Err e ->
                e <> Retry.EINTR ->
                outcome (direct_openat Q fuel l path flags mode w)
                = (Some (-1), e))) /\
  ((forall i, k_safe_openat Q i (l_fd l) path flags mode = Err Retry.EINTR) ->
   (direct_openat Q fuel l path flags mode w).1 = None).
Proof.
  split; [ | split].
  - intros r w' H. split.
    + apply (retry_not_interrupted id _ fuel 0%nat w r w' H).
    + apply (openat_loop_frame Q (l_fd l) path flags mode fuel 0%nat w r w' H).
  - intros n Hint Hfuel. unfold direct_openat.
    rewrite (retry_skip id _ n 0%nat fuel w);
      [ | intros i w0 Hi; apply c_safe_openat_interrupted; apply Hint; lia
        | lia].
    change (0 + n)%nat with n.
    set (w0 := match n with O => w | S _ => set_errno Retry.EINTR w end).
    destruct (fuel - n)%nat as [ | f] eqn:Ef; [lia | ].
    split.
    + intros fd Ho Hfd.
      rewrite (retry_step_settled id _ f n w0 fd
                 (if 0 <=? fd then add_open fd w0 else w0)).
      * reflexivity.
      * unfold c_safe_openat. rewrite Ho. reflexivity.
      * unfold id. replace (fd =? -1) with false; [reflexivity | ].
        symmetry. apply Z.eqb_neq. lia.
    + intros e He Hne.
      rewrite (retry_step_settled id _ f n w0 (-1) (set_errno e w0)).
      * reflexivity.
      * unfold c_safe_openat. rewrite He. reflexivity.
      * simpl. apply Z.eqb_neq in Hne. rewrite Hne. reflexivity.
  - intros Hall. unfold direct_openat. apply retry_forever.
    intros i w0. apply c_safe_openat_interrupted. apply Hall.
Qed.

Lemma openat_retries_interruptions_witness :
  interrupted_before
    (fun i => k_safe_openat DemoIO.io i 3 "slow" 0 0) 2 /\
  k_safe_openat DemoIO.io 2 3 "slow" 0 0 = Ok 20 /\
  (direct_openat DemoIO.io 5 Demo.loaded_layer "slow" 0 0 Demo.w1).1
    = Some 20 /\
  (direct_openat DemoIO.io 5 Demo.loaded_layer "stuck" 0 0 Demo.w1).1
    = None.
Proof.
  assert (Hint : interrupted_before
                   (fun i => k_safe_openat DemoIO.io i 3 "slow" 0 0) 2).
  { intros i Hi. destruct i as [ | [ | i]]; [reflexivity | reflexivity | lia]. }
  split; [exact Hint | ].
  split; [reflexivity | ].
  destruct (openat_retries_interruptions DemoIO.io 5 Demo.loaded_layer
              "slow" 0 0 Demo.w1) as (_ & Hsettle & _).
  destruct (openat_retries_interruptions DemoIO.io 5 Demo.loaded_layer
              "stuck" 0 0 Demo.w1) as (_ & _ & Hstuck).
  split.
  - destruct (Hsettle 2%nat Hint ltac:(lia)) as [Hok _].
    apply (Hok 20); [reflexivity | lia].
  - apply Hstuck. intros i. reflexivity.
Defined.

Lemma length_substring_0 (s : string) : forall n,
  (n <= String.length s)%nat -> String.length (String.substring 0 n s) = n.
Proof.
  induction s as [ | c s IH]; intros n Hn; simpl in *.
  - destruct n; [reflexivity | lia].
  - destruct n as [ | n]; [reflexivity | ]. simpl. rewrite IH; [reflexivity | lia].
Qed.

Section ReadLink.
Variable Q : io_platform.

Lemma c_readlinkat_interrupted i dirfd path bufsiz w :
  k_readlinkat Q i dirfd path = Err Retry.EINTR ->
  exists r, c_readlinkat Q i dirfd path bufsiz w
            = (r, set_errno Retry.EINTR w) /\ r.1 = -1.
Proof.
  intros H. unfold c_readlinkat. rewrite H. exists (-1, EmptyString).
  split; reflexivity.
Qed.

Lemma readlinkat_loop_frame dirfd path bufsiz fuel : forall k w cnt buf w',
  temp_failure_retry fst fuel
    (fun i => c_readlinkat Q i dirfd path bufsiz) k w
  = (Some (cnt, buf), w') ->
  w_open w' = w_open w /\ w_heap w' = w_heap w /\
  ((cnt = -1 /\ buf = EmptyString) \/
   (0 <= cnt <= bufsiz /\ Z.of_nat (String.length buf) = cnt)).
Proof.
  induction fuel as [ | fuel IH]; simpl; intros k w cnt buf w' H.
  - discriminate H.
  - unfold_M. unfold c_readlinkat in H at 1.
    destruct (k_readlinkat Q k dirfd path) as [target | e]; unfold_M.
    + destruct (bufsiz <=? 0) eqn:Hb; unfold_M.
      * injection H as <- <- <-. repeat split. left. split; reflexivity.
      * apply Z.leb_gt in Hb.
        assert (Hmin : 0 <= Z.min (Z.of_nat (String.length target)) bufsiz)
          by lia.
        assert (Hne : (Z.min (Z.of_nat (String.length target)) bufsiz =? -1)
                      = false) by (apply Z.eqb_neq; lia).
        rewrite Hne in H. simpl in H. injection H as <- <- <-.
        repeat split; right; split; [lia | ].
        rewrite length_substring_0; lia.
    + destruct (e =? Retry.EINTR).
      * destruct (IH _ _ _ _ _ H) as (Ho & Hh & Hc).
        repeat split; assumption.
      * injection H as <- <- <-. repeat split. left. split; reflexivity.
Qed.

End ReadLink.

(** X14. Link read retries on interruption and never overruns the buffer.
    [direct_readlinkat] hands back only a result that is not an
    interruption; it opens no descriptor and leaves the heap alone; and it
    either fails (-1, nothing written) or writes a count of bytes between
    0 and [bufsiz].  After any number of interrupted attempts, on a link the
    kernel can read and a buffer of positive size, it yields the first
    min (length of the target, [bufsiz]) bytes of the target, with no
    error when the target is cut short. *)
Theorem readlinkat_retries_and_truncates
    (Q : io_platform) (fuel : nat) (l : ovl_layer) (path : string)
    (bufsiz : Z) (w : world) :
  (forall cnt buf w',
     direct_readlinkat Q fuel l path bufsiz w = (Some (cnt, buf), w') ->
     ~ (cnt = -1 /\ w_errno w' = Retry.EINTR) /\
     w_open w' = w_open w /\ w_heap w' = w_heap w /\
     ((cnt = -1 /\ buf = EmptyString) \/
      (0 <= cnt <= bufsiz /\ Z.of_nat (String.length buf) = cnt))) /\
  (forall n target,
     interrupted_before (fun i => k_readlinkat Q i (l_fd l) path) n ->
     (n < fuel)%nat ->
     k_readlinkat Q n (l_fd l) path = Ok target ->
     0 < bufsiz ->
     (direct_readlinkat Q fuel l path bufsiz w).1
     = Some (Z.min (Z.of_nat (String.length target)) bufsiz,
             String.substring 0
               (Z.to_nat (Z.min (Z.of_nat (String.length target)) bufsiz))
               target)).
Proof.
  split.
  - intros cnt buf w' H. split.
    + apply (retry_not_interrupted fst _ fuel 0%nat w (cnt, buf) w' H).
    + apply (readlinkat_loop_frame Q (l_fd l) path bufsiz fuel 0%nat w
               cnt buf w' H).
  - intros n target Hint Hfuel Ho Hb. unfold direct_readlinkat.
    rewrite (retry_skip fst _ n 0%nat fuel w);
      [ | intros i w0 Hi; apply c_readlinkat_interrupted; apply Hint; lia
        | lia].
    change (0 + n)%nat with n.
    set (w0 := match n with O => w | S _ => set_errno Retry.EINTR w end).
    destruct (fuel - n)%nat as [ | f] eqn:Ef; [lia | ].
    assert (Hb' : (bufsiz <=? 0) = false) by (apply Z.leb_gt; exact Hb).
    rewrite (retry_step_settled fst _ f n w0
               (Z.min (Z.of_nat (String.length target)) bufsiz,
                String.substring 0
                  (Z.to_nat (Z.min (Z.of_nat (String.length target)) bufsiz))
                  target) w0).
    + reflexivity.
    + unfold c_readlinkat. rewrite Ho, Hb'. reflexivity.
    + simpl.
      replace (Z.min (Z.of_nat (String.length target)) bufsiz =? -1)
        with false; [reflexivity | ].
      symmetry. apply Z.eqb_neq. lia.
Qed.

Lemma readlinkat_retries_and_truncates_witness :
  interrupted_before (fun i => k_readlinkat DemoIO.io i 3 "link") 1 /\
  k_readlinkat DemoIO.io 1 3 "link" = Ok "target/of/link"%string /\
  (direct_readlinkat DemoIO.io 3 Demo.loaded_layer "link" 6 Demo.w1).1
    = Some (6, "target"%string).
Proof.
  assert (Hint : interrupted_before
                   (fun i => k_readlinkat DemoIO.io i 3 "link") 1).
  { intros i Hi. destruct i as [ | i]; [reflexivity | lia]. }
  split; [exact Hint | ].
  split; [reflexivity | ].
  destruct (readlinkat_retries_and_truncates DemoIO.io 3 Demo.loaded_layer
              "link" 6 Demo.w1) as [_ Hsettle].
  rewrite (Hsettle 1%nat "target/of/link"%string Hint);
    [reflexivity | lia | reflexivity | lia].
Defined.

(** X15. Directory open keeps or releases its descriptor as it should.
    When [direct_opendir] returns NULL, whether the open or the stream
    creation failed, no descriptor is left open (the table is within the
    one before); when it returns a stream, exactly the descriptor that
    backs the stream has been added to the table and stays open for the
    stream; the heap is never touched.  After any number of interrupted
    opens, a directory that opens and whose stream is created yields that
    stream. *)
Theorem opendir_descriptor_ownership
    (Q : io_platform) (fuel : nat) (l : ovl_layer) (path : string)
    (w : world) :
  (forall dp w',
     direct_opendir Q fuel l path w = (Some dp, w') ->
     w_heap w' = w_heap w /\
     (dp = C.NULL -> w_open w' ⊆ w_open w) /\
     (dp <> C.NULL ->
      exists fd, 0 <= fd /\ k_fdopendir Q fd = Ok dp /\
                 w_open w' = {[fd]} ∪ w_open w)) /\
  (forall n fd dp,
     interrupted_before
       (fun i => k_safe_openat Q i (l_fd l) path C.O_DIRECTORY 0) n ->
     (n < fuel)%nat ->
     k_safe_openat Q n (l_fd l) path C.O_DIRECTORY 0 = Ok fd -> 0 <= fd ->
     k_fdopendir Q fd = Ok dp -> dp <> C.NULL ->
     (direct_opendir Q fuel l path w).1 = Some dp).
Proof.
  split.
  - intros dp w' H. unfold direct_opendir in H. unfold_M.
    destruct (temp_failure_retry id fuel
                (fun i => c_safe_openat Q i (l_fd l) path C.O_DIRECTORY 0)
                0%nat w) as [[r | ] w1] eqn:E; [ | discriminate H].
    destruct (openat_loop_frame Q (l_fd l) path C.O_DIRECTORY 0 fuel
                0%nat w r w1 E) as [Hh [[Hr Ho] | [Hr Ho]]].
    + assert (Hneg : (r <? 0) = true) by (apply Z.ltb_lt; exact Hr).
      assert (Hge : (0 <=? r) = false) by (apply Z.leb_gt; exact Hr).
      rewrite Hneg in H. unfold cleanup_close in H. rewrite Hge in H.
      simpl in H. injection H as <- <-.
      split; [exact Hh | ].
      split; [intros _; rewrite Ho; reflexivity | ].
      intros Hn. contradiction Hn. reflexivity.
    + assert (Hneg : (r <? 0) = false) by (apply Z.ltb_ge; exact Hr).
      assert (Hge : (0 <=? r) = true) by (apply Z.leb_le; exact Hr).
      rewrite Hneg in H. unfold c_fdopendir in H.
      assert (Hsub : ({[r]} ∪ w_open w) ∖ {[r]} ⊆ w_open w).
      { intros x Hx. apply elem_of_difference in Hx. destruct Hx as [Hx Hn].
        apply elem_of_union in Hx. destruct Hx as [Hx | Hx];
          [contradiction | exact Hx]. }
      destruct (k_fdopendir Q r) as [dp0 | e] eqn:Ed; unfold_M.
      * destruct (dp0 =? C.NULL) eqn:Hnull.
        -- unfold cleanup_close in H. rewrite Hge in H. simpl in H.
           injection H as <- <-. simpl.
           split; [exact Hh | ].
           split; [intros _; rewrite Ho; exact Hsub | ].
           intros Hn. contradiction Hn. reflexivity.
        -- simpl in H. injection H as <- <-.
           split; [exact Hh | ].
           split.
           ++ intros ->. discriminate Hnull.
           ++ intros _. exists r. repeat split; assumption.
      * unfold cleanup_close in H. rewrite Hge in H. simpl in H.
        injection H as <- <-. simpl.
        split; [exact Hh | ].
        split; [intros _; rewrite Ho; exact Hsub | ].
        intros Hn. contradiction Hn. reflexivity.
  - intros n fd dp Hint Hfuel Ho Hfd Hd Hdp. unfold direct_opendir. unfold_M.
    rewrite (retry_skip id _ n 0%nat fuel w);
      [ | intros i w0 Hi; apply c_safe_openat_interrupted; apply Hint; lia
        | lia].
    change (0 + n)%nat with n.
    set (w0 := match n with O => w | S _ => set_errno Retry.EINTR w end).
    destruct (fuel - n)%nat as [ | f] eqn:Ef; [lia | ].
    rewrite (retry_step_settled id _ f n w0 fd
               (if 0 <=? fd then add_open fd w0 else w0)).
    + assert (Hneg : (fd <? 0) = false) by (apply Z.ltb_ge; exact Hfd).
      rewrite Hneg. unfold c_fdopendir. rewrite Hd. unfold_M.
      apply Z.eqb_neq in Hdp. rewrite Hdp. reflexivity.
    + unfold c_safe_openat. rewrite Ho. reflexivity.
    + unfold id. replace (fd =? -1) with false; [reflexivity | ].
      symmetry. apply Z.eqb_neq. lia.
Qed.

Lemma opendir_descriptor_ownership_witness :
  (direct_opendir DemoIO.io 5 Demo.loaded_layer "slow" Demo.w1).1
    = Some 9001 /\
  w_open (direct_opendir DemoIO.io 5 Demo.loaded_layer "slow" Demo.w1).2
    = {[20]} ∪ w_open Demo.w1 /\
  (direct_opendir DemoIO.io 5 Demo.loaded_layer "file" Demo.w1).1
    = Some C.NULL /\
  w_open (direct_opendir DemoIO.io 5 Demo.loaded_layer "file" Demo.w1).2
    ⊆ w_open Demo.w1.
Proof.
  destruct (opendir_descriptor_ownership DemoIO.io 5 Demo.loaded_layer
              "slow" Demo.w1) as [Hback Hfwd].
  destruct (opendir_descriptor_ownership DemoIO.io 5 Demo.loaded_layer
              "file" Demo.w1) as [Hback' _].
  assert (Hslow : (direct_opendir DemoIO.io 5 Demo.loaded_layer "slow"
                     Demo.w1).1 = Some 9001).
  { apply (Hfwd 2%nat 20 9001);
      [ intros i Hi; destruct i as [ | [ | i]]; [reflexivity | reflexivity | lia]
      | lia | reflexivity | lia | reflexivity | unfold C.NULL; lia ]. }
  split; [exact Hslow | ].
  split.
  - destruct (Hback 9001
                (direct_opendir DemoIO.io 5 Demo.loaded_layer "slow"
                   Demo.w1).2) as (_ & _ & Hs).
    + rewrite <- Hslow. destruct (direct_opendir _ _ _ _ _); reflexivity.
    + destruct Hs as (fd & _ & Hd & Ho); [unfold C.NULL; lia | ].
      assert (fd = 20).
      { unfold DemoIO.io, DemoIO.io_fdopendir in Hd. simpl in Hd.
        destruct (fd =? 21) eqn:E1; [discriminate Hd | ].
        destruct (fd =? 20) eqn:E2; [apply Z.eqb_eq in E2; exact E2 | ].
        discriminate Hd. }
      subst fd. exact Ho.
  - split; [reflexivity | ].
    destruct (Hback' C.NULL
                (direct_opendir DemoIO.io 5 Demo.loaded_layer "file"
                   Demo.w1).2) as (_ & Hn & _); [reflexivity | ].
    apply Hn. reflexivity.
Defined.

(** X16. What a successful load acquires.  A load that returns 0 has
    resolved the path and opened the path as given (not the resolved one)
    as a directory; the layer holds the descriptor and the address of the
    resolved string; and the state differs from the one before by exactly
    that descriptor, added to the table, and that one heap block, holding
    the resolved path (with [errno] possibly set by a failed probe). *)
Theorem load_acquires_root
    (P : platform) (l0 : ovl_layer) (opaque path : string) (n : Z)
    (w : world) (l : ovl_layer) (w' : world) :
  direct_load_data_source P l0 opaque path n w = ((0, l), w') ->
  exists canonical,
    k_realpath P path = Ok (l_path l, canonical) /\
    k_open P path C.O_DIRECTORY = Ok (l_fd l) /\
    l_path l <> C.NULL /\ 0 <= l_fd l /\
    w_open w' = {[l_fd l]} ∪ w_open w /\
    w_heap w' = <[l_path l := canonical]> (w_heap w) /\
    w_heap w' !! l_path l = Some canonical.
Proof.
  intros Hload.
  destruct (load_success P l0 opaque path n w l w' Hload)
    as (p & s & fd & Hr & Hp & Ho & Hfd & Hlp & Hlfd & _ & _ & Hopen & Hheap).
  exists s. rewrite Hlp, Hlfd, Hheap.
  repeat split; try assumption. apply lookup_insert_eq.
Qed.

Lemma load_acquires_root_witness :
  Demo.load_on Demo.demo
    = ((0, Demo.loaded_layer), (Demo.load_on Demo.demo).2) /\
  w_open (Demo.load_on Demo.demo).2 = {[3]} ∪ w_open Demo.w0 /\
  w_heap (Demo.load_on Demo.demo).2 !! 4096 = Some "/layer"%string.
Proof.
  split; [reflexivity | ].
  destruct (load_acquires_root Demo.demo Demo.fresh_layer "" "/layer" 0
              Demo.w0 Demo.loaded_layer (Demo.load_on Demo.demo).2)
    as (canonical & Hr & _ & _ & _ & Ho & _ & Hh); [reflexivity | ].
  split; [exact Ho | ].
  injection Hr as <-. exact Hh.
Defined.
